(** * powermon: the RAPL sampling engine of [src/Rapl.cpp]

    A shallow embedding of the class [Rapl]: vendor detection, socket
    discovery, register access, the three-slot sampling state machine and
    the power / energy queries, followed by the properties the
    specification states about them.

    Conventions.
    - [uint64_t] and [uint32_t] values are integers of [Z]; every C++
      operation that can leave the range has its wrap-around written out
      ([wrap64], [Z.land _ max_int]).
    - [double] is the kernel's binary64 ([PrimFloat.float]).
    - [exit(n)] and undefined behaviour (a read of an unset slot, an
      out-of-bounds store, flowing off the end of a value-returning
      function) are outcomes of the computation, see [outcome].
    - The operating system is an explicit [System] of oracles; the calls
      whose answer changes over time ([pread], [gettimeofday], the
      contents of fresh storage) are indexed by the number of such calls
      made so far, which the monad [M] threads. *)

From Stdlib Require Import ZArith Floats Ascii.
From stdpp Require Import gmap strings list pretty sorting.

Open Scope Z_scope.

(** ** Machine integers *)

Definition wrap64 (z : Z) : Z := z mod 2 ^ 64.

(** [~((uint32_t) 0)] *)
Definition max_int : Z := 4294967295.

Definition INT_MIN : Z := - 2 ^ 31.
Definition INT_MAX : Z := 2 ^ 31 - 1.
Definition in_int (z : Z) : bool := (INT_MIN <=? z) && (z <=? INT_MAX).

(** ** Outcomes of a run *)

Inductive outcome (A : Type) : Type :=
| Done (a : A)          (* the call returns *)
| Exit (code : Z)       (* the process ends through [exit(code)] *)
| Undefined.            (* the C++ standard gives the run no meaning *)
Arguments Done {A} a.
Arguments Exit {A} code.
Arguments Undefined {A}.

Definition EXIT_FAILURE : Z := 1.

(** [M A]: a computation that has made [n] time-dependent system calls
    returns its result together with the new count. *)
Definition M (A : Type) : Type := nat → outcome (A * nat).

Definition ret {A} (a : A) : M A := λ n, Done (a, n).

Definition bind {A B} (m : M A) (k : A → M B) : M B :=
  λ n, match m n with
       | Done (a, n') => k a n'
       | Exit c => Exit c
       | Undefined => Undefined
       end.

Definition exit {A} (code : Z) : M A := λ _, Exit code.
Definition undefined {A} : M A := λ _, Undefined.

(** Reading slot [i] of an array of pointers or of [int]s that were never
    assigned has no defined result. *)
Definition deref {A} (arr : gmap nat A) (i : nat) : M A :=
  match arr !! i with
  | Some a => ret a
  | None => undefined
  end.

Notation "'do' x <- m ; k" := (bind m (λ x, k))
  (at level 10, x name, m at level 100, k at level 200).

(** A loop over the indices [idx], threading what the body updates.
    [for (int i=0; i<n; i++)] is [for_loop (upto n)]. *)
Fixpoint for_loop {I S} (idx : list I) (body : I → S → M S) (s : S) : M S :=
  match idx with
  | [] => ret s
  | i :: idx' => do s' <- body i s; for_loop idx' body s'
  end.

Definition upto (n : Z) : list nat := seq 0 (Z.to_nat n).

(** ** Data model *)

Record timeval := { tv_sec : Z; tv_usec : Z }.

(** Modelled from the spec: [rapl_state_t] is declared in [Rapl.h], which
    is not among the sources.  The four domain counters and the capture
    timestamp are the fields [Rapl.cpp] uses; the counters are taken as
    [uint64_t], the type [energy_delta] and [power] receive them at. *)
Record rapl_state_t := {
  pkg : Z;
  pp0 : Z;
  pp1 : Z;
  dram : Z;
  tsc : timeval
}.

(** ** The operating system and the processor *)

Record cpuid_regs := { eax : Z; ebx : Z; ecx : Z; edx : Z }.

(** [open(2)]: the descriptor returned, and [errno] after the call. *)
Record open_result := { open_fd : Z; open_errno : Z }.

(** [pread(2)] of 8 bytes: the count returned and the bytes stored, as
    the little-endian [uint64_t] they form. *)
Record pread_result := { pread_ret : Z; pread_data : Z }.

(** A file of [/sys]: absent ([fopen] returns [NULL]), present but
    failing on the first read, or present with the given contents. *)
Inductive file_status :=
| NoFile
| ReadError
| Contents (s : string).

Record System := {
  sys_cpuid : Z → cpuid_regs;                  (* by leaf, the input [eax] *)
  sys_file : string → file_status;
  sys_open : string → open_result;
  sys_pread : nat → Z → Z → pread_result;      (* call number, fd, offset *)
  sys_gettimeofday : nat → timeval;            (* call number *)
  sys_new : nat → rapl_state_t                 (* call number: what fresh storage holds *)
}.

(** [<errno.h>] on Linux. *)
Definition EIO : Z := 5.
Definition ENXIO : Z := 6.

(** ** The object *)

Record Rapl := {
  vendor : Z;
  n_sockets : Z;
  pp1_supported : bool;
  energy_units : float;
  fd : gmap nat Z;
  prev_state : gmap nat rapl_state_t;
  current_state : gmap nat rapl_state_t;
  next_state : gmap nat rapl_state_t;
  running_total : gmap nat rapl_state_t
}.

(** The object with its descriptors, or with its four arrays of records,
    replaced. *)
Definition with_fd (r : Rapl) (fd' : gmap nat Z) : Rapl :=
  {| vendor := vendor r; n_sockets := n_sockets r;
     pp1_supported := pp1_supported r; energy_units := energy_units r;
     fd := fd';
     prev_state := prev_state r; current_state := current_state r;
     next_state := next_state r; running_total := running_total r |}.

Definition with_states (r : Rapl)
    (prev' current' next' total' : gmap nat rapl_state_t) : Rapl :=
  {| vendor := vendor r; n_sockets := n_sockets r;
     pp1_supported := pp1_supported r; energy_units := energy_units r;
     fd := fd r;
     prev_state := prev'; current_state := current';
     next_state := next'; running_total := total' |}.

Definition MSR_PKG_ENERGY_STATUS : Z := 0x611.
Definition MSR_PP0_ENERGY_STATUS : Z := 0x639.
Definition MSR_PP1_ENERGY_STATUS : Z := 0x641.
Definition MSR_DRAM_ENERGY_STATUS : Z := 0x619.
Definition AMD_MSR_PACKAGE_ENERGY : Z := 0xC001029B.

(** ** Rollover-safe delta *)

Definition energy_delta (before after : Z) : Z :=
  let eng_delta := wrap64 (after - before) in
  if after <? before
  then wrap64 (after + wrap64 (max_int - before))
  else eng_delta.

(** ** Register access *)

Section WithSystem.
Variable sys : System.

Definition gettimeofday : M timeval :=
  λ n, Done (sys_gettimeofday sys n, S n).

(** [new rapl_state_t]: default-initialised, so the fields hold whatever
    the storage held; each is some [uint64_t]. *)
Definition new_rapl_state_t : M rapl_state_t :=
  λ n, let g := sys_new sys n in
       Done ({| pkg := wrap64 (pkg g); pp0 := wrap64 (pp0 g);
                pp1 := wrap64 (pp1 g); dram := wrap64 (dram g);
                tsc := tsc g |}, S n).

Definition msr_path (cpuCore : Z) : string :=
  "/dev/cpu/" +:+ pretty cpuCore +:+ "/msr".

Definition open_msr (socket : nat) (cpuCore : Z) (r : Rapl) : M Rapl :=
  let res := sys_open sys (msr_path cpuCore) in
  let r' := with_fd r (<[socket := open_fd res]> (fd r)) in
  if open_fd res <? 0 then
    if open_errno res =? ENXIO then exit 2
    else if open_errno res =? EIO then exit 3
    else exit 127
  else ret r'.

Definition read_msr (r : Rapl) (socket : nat) (msr_offset : Z) : M Z :=
  do f <- deref (fd r) socket;
  λ n, let res := sys_pread sys n f msr_offset in
       if pread_ret res =? 8
       then Done (wrap64 (pread_data res), S n)
       else Exit 127.

(** ** Sampling *)

Definition read_counters (r : Rapl) (socket : nat) (nxt : rapl_state_t)
  : M rapl_state_t :=
  if vendor r =? 0 then
    do v_pkg <- read_msr r socket MSR_PKG_ENERGY_STATUS;
    do v_pp0 <- read_msr r socket MSR_PP0_ENERGY_STATUS;
    if pp1_supported r then
      do v_pp1 <- read_msr r socket MSR_PP1_ENERGY_STATUS;
      ret {| pkg := Z.land v_pkg max_int; pp0 := Z.land v_pp0 max_int;
             pp1 := Z.land v_pp1 max_int; dram := 0; tsc := tsc nxt |}
    else
      do v_dram <- read_msr r socket MSR_DRAM_ENERGY_STATUS;
      ret {| pkg := Z.land v_pkg max_int; pp0 := Z.land v_pp0 max_int;
             pp1 := 0; dram := Z.land v_dram max_int; tsc := tsc nxt |}
  else if vendor r =? 1 then
    do val <- read_msr r socket AMD_MSR_PACKAGE_ENERGY;
    ret {| pkg := Z.land val max_int; pp0 := 0; pp1 := 0; dram := 0;
           tsc := tsc nxt |}
  else ret nxt.

(** The four [+=] of [sample], on the record [running_total[socket]]
    points to. *)
Definition update_running_total (rt cur nxt : rapl_state_t) : rapl_state_t :=
  {| pkg := wrap64 (pkg rt + energy_delta (pkg cur) (pkg nxt));
     pp0 := wrap64 (pp0 rt + energy_delta (pp0 cur) (pp0 nxt));
     pp1 := wrap64 (pp1 rt + energy_delta (pp0 cur) (pp0 nxt));
     dram := wrap64 (dram rt + energy_delta (dram cur) (dram nxt));
     tsc := tsc rt |}.

(** [tsc] of a record assigned. *)
Definition with_tsc (s : rapl_state_t) (t : timeval) : rapl_state_t :=
  {| pkg := pkg s; pp0 := pp0 s; pp1 := pp1 s; dram := dram s; tsc := t |}.

(** [Rapl::sample(int socket)] *)
Definition sample (socket : nat) (r : Rapl) : M Rapl :=
  do nxt0 <- deref (next_state r) socket;
  do nxt1 <- read_counters r socket nxt0;
  do now <- gettimeofday;
  let nxt := with_tsc nxt1 now in
  do rt <- deref (running_total r) socket;
  do cur <- deref (current_state r) socket;
  do pprev_state <- deref (prev_state r) socket;
  ret (with_states r
         (<[socket := cur]> (prev_state r))
         (<[socket := nxt]> (current_state r))
         (<[socket := pprev_state]> (next_state r))
         (<[socket := update_running_total rt cur nxt]> (running_total r))).

(** [Rapl::sample()] *)
Definition sample_all (r : Rapl) : M Rapl :=
  for_loop (upto (n_sockets r)) sample r.

(** A caller's sequence of [sample(socket)] calls; the states the
    object goes through are returned in order. *)
Fixpoint sample_seq (calls : list nat) (r : Rapl) : M (list Rapl) :=
  match calls with
  | [] => ret []
  | socket :: calls' =>
      do r' <- sample socket r;
      do rs <- sample_seq calls' r';
      ret (r' :: rs)
  end.

(** One iteration of the loop of [Rapl::reset]. *)
Definition reset_socket (i : nat) (r : Rapl) : M Rapl :=
  do p <- new_rapl_state_t;
  do c <- new_rapl_state_t;
  do n <- new_rapl_state_t;
  do t <- new_rapl_state_t;
  let r0 := with_states r
              (<[i := p]> (prev_state r)) (<[i := c]> (current_state r))
              (<[i := n]> (next_state r)) (<[i := t]> (running_total r)) in
  do r1 <- sample i r0;
  do r2 <- sample i r1;
  do rt <- deref (running_total r2) i;
  do now <- gettimeofday;
  let rt' := {| pkg := 0; pp0 := 0; pp1 := pp1 rt; dram := 0; tsc := now |} in
  ret (with_states r2 (prev_state r2) (current_state r2) (next_state r2)
         (<[i := rt']> (running_total r2))).

(** [Rapl::reset()] *)
Definition reset (r : Rapl) : M Rapl :=
  for_loop (upto (n_sockets r)) reset_socket r.

End WithSystem.

(** ** C strings *)

Definition code (c : Ascii.ascii) : Z := Z.of_N (Ascii.N_of_ascii c).
Definition chr (z : Z) : Ascii.ascii := Ascii.ascii_of_N (Z.to_N (z mod 256)).
Definition NUL : Ascii.ascii := Ascii.zero.

(** The string a [char] buffer holds: what precedes its first NUL. *)
Fixpoint c_str (buf : string) : string :=
  match buf with
  | EmptyString => EmptyString
  | String c buf' => if code c =? 0 then EmptyString else String c (c_str buf')
  end.

(** [strcmp] on two buffers; the end of a buffer reads as its terminator. *)
Fixpoint strcmp (s1 s2 : string) : Z :=
  match s1, s2 with
  | EmptyString, EmptyString => 0
  | EmptyString, String b _ => - code b
  | String a _, EmptyString => code a
  | String a s1', String b s2' =>
      if code a =? code b
      then if code a =? 0 then 0 else strcmp s1' s2'
      else code a - code b
  end.

Fixpoint strchr (s : string) (c : Ascii.ascii) : bool :=
  match s with
  | EmptyString => false
  | String a s' => (code a =? code c) || strchr s' c
  end.

Definition isspace (c : Ascii.ascii) : bool :=
  (code c =? 32) || ((9 <=? code c) && (code c <=? 13)).

Definition isdigit (c : Ascii.ascii) : bool :=
  (48 <=? code c) && (code c <=? 57).

Fixpoint skip_space (s : string) : string :=
  match s with
  | EmptyString => EmptyString
  | String c s' => if isspace c then skip_space s' else s
  end.

Fixpoint scan_digits (s : string) (acc : Z) : Z * string :=
  match s with
  | EmptyString => (acc, EmptyString)
  | String c s' =>
      if isdigit c then scan_digits s' (10 * acc + (code c - 48)) else (acc, s)
  end.

(** The conversion [%d] of the [scanf] family: blanks, an optional sign,
    at least one digit.  The value and the unread rest. *)
Definition scan_int (s : string) : option (Z * string) :=
  let s0 := skip_space s in
  let '(neg, s1) :=
    match s0 with
    | String c s' =>
        if code c =? 45 then (true, s')
        else if code c =? 43 then (false, s')
        else (false, s0)
    | EmptyString => (false, s0)
    end in
  match s1 with
  | String c _ =>
      if isdigit c
      then let '(v, rest) := scan_digits s1 0 in
           Some (if neg : bool then - v else v, rest)
      else None
  | EmptyString => None
  end.

(** [atoi]: 0 when there is no number; no meaning outside [int]. *)
Definition atoi (s : string) : M Z :=
  match scan_int s with
  | Some (v, _) => if in_int v then ret v else undefined
  | None => ret 0
  end.

(** [sscanf(token, "%d-%d", &start, &end)].  Both variables are read
    afterwards, so a conversion that does not happen leaves the run
    without meaning. *)
Definition sscanf_range (token : string) : M (Z * Z) :=
  match scan_int token with
  | Some (start, String c rest) =>
      if code c =? 45 then
        match scan_int rest with
        | Some (end_, _) =>
            if in_int start && in_int end_ then ret (start, end_) else undefined
        | None => undefined
        end
      else undefined
  | _ => undefined
  end.

(** [fgets(line, size, fp)]: at most [size - 1] characters, up to and
    including the first newline; [None] is [NULL]. *)
Fixpoint fgets_chars (n : nat) (s : string) : string :=
  match n, s with
  | S n', String c s' =>
      if code c =? 10 then String c EmptyString
      else String c (fgets_chars n' s')
  | _, _ => EmptyString
  end.

Definition fgets (size : Z) (f : file_status) : option string :=
  match f with
  | Contents (String c s) => Some (c_str (fgets_chars (Z.to_nat (size - 1)) (String c s)))
  | _ => None
  end.

(** The tokens the calls [strtok(line, ","); strtok(NULL, ","); ...]
    return, in order: the maximal runs of non-delimiters. *)
Fixpoint strtok_aux (s : string) (delim : Ascii.ascii) (tok : string) : list string :=
  match s with
  | EmptyString => match tok with EmptyString => [] | _ => [tok] end
  | String c s' =>
      if code c =? code delim
      then match tok with
           | EmptyString => strtok_aux s' delim EmptyString
           | _ => tok :: strtok_aux s' delim EmptyString
           end
      else strtok_aux s' delim (tok +:+ String c EmptyString)
  end.

Definition strtok_all (line : string) (delim : Ascii.ascii) : list string :=
  strtok_aux line delim EmptyString.

(** ** Vendor detection *)

(** The bytes of a [uint32_t] in memory, lowest first. *)
Definition le_bytes32 (x : Z) : string :=
  String (chr x) (String (chr (x / 2 ^ 8))
    (String (chr (x / 2 ^ 16)) (String (chr (x / 2 ^ 24)) EmptyString))).

(** The first twelve bytes of the union [u]: [ebx], [edx], [ecx]. *)
Definition vendor_id (u : cpuid_regs) : string :=
  le_bytes32 (ebx u) +:+ le_bytes32 (edx u) +:+ le_bytes32 (ecx u).

Definition get_vendor (sys : System) : Z :=
  let u := sys_cpuid sys 0 in
  let u_vendor := vendor_id u +:+ String NUL EmptyString in
  if strcmp u_vendor "AuthenticAMD" =? 0 then 1 else 0.

(** ** Socket discovery *)

(** What [get_n_sockets] leaves behind: the value returned and the two
    member arrays it fills. *)
Record topology := {
  count : Z;
  sockets : list Z;
  first_lcoreid : list Z
}.

Section Topology.
(** The capacities [Rapl.h] defines; the header is not among the
    sources, so they are parameters. *)
Variables MAX_LINE MAX_CPU MAX_SOCKETS : Z.
Variable sys : System.

Definition online_path : string := "/sys/devices/system/cpu/online".

Definition package_path (c : Z) : string :=
  "/sys/devices/system/cpu/cpu" +:+ pretty c
    +:+ "/topology/physical_package_id".

(** [cpu[n++] = i], on the array [int cpu[MAX_CPU]] filled so far with
    the [n] elements of [cpu]. *)
Definition push_cpu (i : Z) (cpu : list Z) : M (list Z) :=
  if Z.of_nat (length cpu) <? MAX_CPU then ret (cpu ++ [i]) else undefined.

(** [for (i = start; i <= end; i++) cpu[n++] = i;] *)
Definition push_range (start end_ : Z) (cpu : list Z) : M (list Z) :=
  if end_ =? INT_MAX then undefined
  else for_loop (map (λ k, start + Z.of_nat k) (upto (end_ - start + 1)))
                push_cpu cpu.

(** The body of the [while (token != NULL)] loop. *)
Definition parse_token (token : string) (cpu : list Z) : M (list Z) :=
  if strchr token "-"%char then
    do se <- sscanf_range token;
    push_range se.1 se.2 cpu
  else
    do v <- atoi token;
    push_cpu v cpu.

(** The body of the loop over the online CPUs. *)
Definition probe_cpu (cpu : list Z) (i : nat) (st : list Z * list Z)
  : M (list Z * list Z) :=
  match cpu !! i with
  | None => undefined
  | Some c =>
      let filename := package_path c in
      if MAX_LINE <=? Z.of_nat (String.length filename) then undefined
      else
        match sys_file sys filename with
        | NoFile => exit EXIT_FAILURE
        | ReadError => exit EXIT_FAILURE
        | Contents s =>
            match scan_int s with
            | None => exit EXIT_FAILURE
            | Some (id, _) =>
                if in_int id && (0 <=? id) && (id <? MAX_SOCKETS) then
                  match st.1 !! Z.to_nat id with
                  | Some s_id =>
                      if s_id =? -1
                      then ret (<[Z.to_nat id := 1]> st.1,
                                <[Z.to_nat id := Z.of_nat i]> st.2)
                      else ret st
                  | None => undefined
                  end
                else undefined
            end
        end
  end.

(** The first half of [get_n_sockets]: the array [cpu] of the online
    CPUs, from the first line of [online_path]. *)
Definition read_online : M (list Z) :=
  match sys_file sys online_path with
  | NoFile => exit EXIT_FAILURE
  | f =>
      match fgets MAX_LINE f with
      | None => exit EXIT_FAILURE
      | Some line => for_loop (strtok_all line ","%char) parse_token []
      end
  end.

Definition get_n_sockets : M topology :=
  do cpu <- read_online;
  let n := length cpu in
  let init := (replicate (Z.to_nat MAX_SOCKETS) (-1),
               replicate (Z.to_nat MAX_SOCKETS) (-1)) in
  do st <- for_loop (seq 0 n) (probe_cpu cpu) init;
  ret {| count := Z.of_nat (length (filter (λ s, s = 1) st.1));
         sockets := st.1;
         first_lcoreid := st.2 |}.

End Topology.

(** ** Power and energy queries *)

(** The conversion of an integer to [double], to nearest even. *)
Definition Z2double (z : Z) : float :=
  SF2Prim (binary_normalize prec emax z 0 false).

Definition time_delta (begin end_ : timeval) : float :=
  (Z2double (tv_sec end_ - tv_sec begin)
   + Z2double (tv_usec end_ - tv_usec begin) / 1000000)%float.

Definition power (r : Rapl) (before after : Z) (time_delta : float) : float :=
  if PrimFloat.eqb time_delta 0%float || PrimFloat.eqb time_delta (-0)%float
  then 0%float
  else
    let energy := (energy_units r * Z2double (energy_delta before after))%float in
    (energy / time_delta)%float.

(** The loop shared by the four [*_current_power]: [p] after it. *)
Definition current_power_loop (domain : rapl_state_t → Z) (r : Rapl) : M float :=
  for_loop (upto (n_sockets r))
    (λ i p,
       do prv <- deref (prev_state r) i;
       do cur <- deref (current_state r) i;
       let t := time_delta (tsc prv) (tsc cur) in
       ret (p + power r (domain prv) (domain cur) t)%float)
    0%float.

Definition pkg_current_power (r : Rapl) : M float :=
  do p <- current_power_loop pkg r; ret p.

Definition pp0_current_power (r : Rapl) : M float :=
  do p <- current_power_loop pp0 r; ret p.

(** The body ends after the loop, without a [return]. *)
Definition pp1_current_power (r : Rapl) : M float :=
  do p <- current_power_loop pp1 r; undefined.

Definition dram_current_power (r : Rapl) : M float :=
  do p <- current_power_loop dram r; ret p.

(** The loop shared by the four [*_total_energy]. *)
Definition total_energy_loop (domain : rapl_state_t → Z) (r : Rapl) : M float :=
  for_loop (upto (n_sockets r))
    (λ i p,
       do rt <- deref (running_total r) i;
       ret (p + energy_units r * Z2double (domain rt))%float)
    0%float.

Definition pkg_total_energy (r : Rapl) : M float := total_energy_loop pkg r.
Definition pp0_total_energy (r : Rapl) : M float := total_energy_loop pp0 r.
Definition pp1_total_energy (r : Rapl) : M float := total_energy_loop pp1 r.
Definition dram_total_energy (r : Rapl) : M float := total_energy_loop dram r.

(** ** Observations on a run of the engine *)

Inductive domain := PKG | PP0 | PP1 | DRAM.

Definition field (d : domain) : rapl_state_t → Z :=
  match d with PKG => pkg | PP0 => pp0 | PP1 => pp1 | DRAM => dram end.

(** The counter of domain [d] in socket [i]'s current snapshot, and the
    socket's running total for [d]. *)
Definition counter (d : domain) (i : nat) (r : Rapl) : Z :=
  from_option (field d) 0 (current_state r !! i).

Definition total (d : domain) (i : nat) (r : Rapl) : Z :=
  from_option (field d) 0 (running_total r !! i).

(** The sum of the per-step deltas of domain [d] on socket [i] along the
    states [r, r1, r2, ...] an object goes through. *)
Fixpoint sum_deltas (d : domain) (i : nat) (r : Rapl) (rs : list Rapl) : Z :=
  match rs with
  | [] => 0
  | r' :: rs' =>
      energy_delta (counter d i r) (counter d i r') + sum_deltas d i r' rs'
  end.

(** The time between the previous and the current snapshot of socket
    [i], as the [*_current_power] queries compute it. *)
Definition elapsed (r : Rapl) (i : nat) : option float :=
  match prev_state r !! i, current_state r !! i with
  | Some prv, Some cur => Some (time_delta (tsc prv) (tsc cur))
  | _, _ => None
  end.

(** The state a sequence of calls ends in. *)
Fixpoint final (r : Rapl) (rs : list Rapl) : Rapl :=
  match rs with
  | [] => r
  | r' :: rs' => final r' rs'
  end.

(** The domain whose counter [sample] takes the increment of the running
    total of [d] from. *)
Definition feed (d : domain) : domain :=
  match d with PP1 => PP0 | _ => d end.

(** Socket [s] has its descriptor and its four records. *)
Definition allocated (r : Rapl) (s : nat) : Prop :=
  is_Some (fd r !! s) ∧
  is_Some (prev_state r !! s) ∧ is_Some (current_state r !! s) ∧
  is_Some (next_state r !! s) ∧ is_Some (running_total r !! s).

(** Every read of a register returns its 8 bytes. *)
Definition reads_succeed (sys : System) : Prop :=
  ∀ k f off, pread_ret (sys_pread sys k f off) = 8.

(** A field of the right type holds a [uint64_t]. *)
Definition is_uint64 (z : Z) : Prop := 0 ≤ z < 2 ^ 64.
Definition is_uint32 (z : Z) : Prop := 0 ≤ z < 2 ^ 32.

(** The package-id source of a CPU cannot be read: [fopen] fails, or
    [fscanf] converts nothing. *)
Definition package_id_unreadable (f : file_status) : Prop :=
  match f with
  | Contents s => scan_int s = None
  | _ => True
  end.

(** The entry of CPU [c] in the per-CPU loop of [get_n_sockets] stays
    within the buffers: the path fits [filename], and a package id that
    is read indexes the member arrays. *)
Definition probe_in_bounds (MAX_LINE MAX_SOCKETS : Z) (sys : System) (c : Z)
  : Prop :=
  Z.of_nat (String.length (package_path c)) < MAX_LINE ∧
  match sys_file sys (package_path c) with
  | Contents s =>
      match scan_int s with
      | Some (id, _) => in_int id = true ∧ 0 ≤ id < MAX_SOCKETS
      | None => True
      end
  | _ => True
  end.

(** The list of online CPUs cannot be read: [fopen] fails, or [fgets]
    returns [NULL]. *)
Definition online_unreadable (MAX_LINE : Z) (f : file_status) : Prop :=
  f = NoFile ∨ fgets MAX_LINE f = None.

(** ** Concrete machines for the examples *)

Definition LF : string := String (chr 10) EmptyString.

Fixpoint files_of (files : list (string * string)) (p : string) : file_status :=
  match files with
  | [] => NoFile
  | (q, s) :: files' => if String.eqb p q then Contents s else files_of files' p
  end.

Definition zero_state : rapl_state_t :=
  {| pkg := 0; pp0 := 0; pp1 := 0; dram := 0;
     tsc := {| tv_sec := 0; tv_usec := 0 |} |}.

(** A machine whose files are [files], whose register device opens as
    descriptor 3, whose [k]-th time-dependent call, when it is a register
    read at [off], returns [msr k off], whose clock shows [k] seconds at
    that call, and whose fresh storage is zeroed. *)
Definition machine (files : list (string * string))
    (msr : nat → Z → pread_result) : System :=
  {| sys_cpuid := λ _, {| eax := 0; ebx := 0; ecx := 0; edx := 0 |};
     sys_file := files_of files;
     sys_open := λ _, {| open_fd := 3; open_errno := 0 |};
     sys_pread := λ k _ off, msr k off;
     sys_gettimeofday := λ k, {| tv_sec := Z.of_nat k; tv_usec := 0 |};
     sys_new := λ _, zero_state |}.

(** Every counter reads [100 * k] at the [k]-th call. *)
Definition ticking_msr (k : nat) (off : Z) : pread_result :=
  {| pread_ret := 8; pread_data := 100 * Z.of_nat k |}.

Definition ticking_machine : System := machine [] ticking_msr.

(** An Intel object with one socket and the graphics plane, before
    [reset] has allocated anything. *)
Definition rapl_unallocated : Rapl :=
  {| vendor := 0; n_sockets := 1; pp1_supported := true;
     energy_units := 0x1p-14%float;
     fd := {[ 0%nat := 3 ]};
     prev_state := ∅; current_state := ∅; next_state := ∅;
     running_total := ∅ |}.

(** That object after [reset] on the ticking machine. *)
Definition reset_state : Rapl :=
  match reset ticking_machine rapl_unallocated 0%nat with
  | Done (r', _) => r'
  | _ => rapl_unallocated
  end.

(** A primed one-socket object: the two snapshots share a timestamp,
    the running totals are [acc]. *)
Definition rapl_primed (acc : rapl_state_t) : Rapl :=
  let t := {| tv_sec := 0; tv_usec := 250 |} in
  {| vendor := 0; n_sockets := 1; pp1_supported := true;
     energy_units := 0x1p-14%float;
     fd := {[ 0%nat := 3 ]};
     prev_state := {[ 0%nat := {| pkg := 900; pp0 := 90; pp1 := 9; dram := 0; tsc := t |} ]};
     current_state := {[ 0%nat := {| pkg := 1000; pp0 := 100; pp1 := 10; dram := 0; tsc := t |} ]};
     next_state := {[ 0%nat := zero_state ]};
     running_total := {[ 0%nat := acc ]} |}.

(** The package counter has advanced by 1, the core plane by 50 and the
    graphics plane by 3 since [rapl_primed] was sampled. *)
Definition later_msr (k : nat) (off : Z) : pread_result :=
  {| pread_ret := 8;
     pread_data := if off =? MSR_PKG_ENERGY_STATUS then 1001
                   else if off =? MSR_PP0_ENERGY_STATUS then 150
                   else if off =? MSR_PP1_ENERGY_STATUS then 13
                   else 0 |}.

Definition later_machine : System := machine [] later_msr.

(** The object after one sample on that machine. *)
Definition later_state : Rapl :=
  match sample later_machine 0%nat (rapl_primed zero_state) 0%nat with
  | Done (r', _) => r'
  | _ => rapl_primed zero_state
  end.

(** The states a caller sees who samples that machine twice. *)
Definition later_states : list Rapl :=
  match sample_seq later_machine [0%nat; 0%nat] (rapl_primed zero_state) 0%nat with
  | Done (rs, _) => rs
  | _ => []
  end.

(** A package accumulator one step from the top of [uint64_t]. *)
Definition acc_full : rapl_state_t :=
  {| pkg := 2 ^ 64 - 1; pp0 := 0; pp1 := 0; dram := 0;
     tsc := {| tv_sec := 0; tv_usec := 0 |} |}.

(** The object with that accumulator, after one sample. *)
Definition wrapped_state : Rapl :=
  match sample later_machine 0%nat (rapl_primed acc_full) 0%nat with
  | Done (r', _) => r'
  | _ => rapl_primed acc_full
  end.

(** A register device that cannot be opened, with [errno] as given, and
    whose reads return [got] bytes. *)
Definition broken_machine (errno got : Z) : System :=
  {| sys_cpuid := λ _, {| eax := 0; ebx := 0; ecx := 0; edx := 0 |};
     sys_file := λ _, NoFile;
     sys_open := λ _, {| open_fd := -1; open_errno := errno |};
     sys_pread := λ _ _ _, {| pread_ret := got; pread_data := 0 |};
     sys_gettimeofday := λ _, {| tv_sec := 0; tv_usec := 0 |};
     sys_new := λ _, zero_state |}.

(** Two sockets of two CPUs each, all four online. *)
Definition two_socket_files : list (string * string) :=
  [ (online_path, "0-3" +:+ LF);
    (package_path 0, "0" +:+ LF); (package_path 1, "0" +:+ LF);
    (package_path 2, "1" +:+ LF); (package_path 3, "1" +:+ LF) ].

(** One socket whose CPUs 0 and 1 are offline. *)
Definition offline_first_files : list (string * string) :=
  [ (online_path, "2-3" +:+ LF);
    (package_path 2, "0" +:+ LF); (package_path 3, "0" +:+ LF) ].

(** CPU 1 has no topology entry. *)
Definition missing_package_files : list (string * string) :=
  [ (online_path, "0-1" +:+ LF); (package_path 0, "0" +:+ LF) ].

(** The processor answers leaf 0 with the vendor string [s] (12 bytes). *)
Definition le_word (s : string) : Z :=
  match s with
  | String a (String b (String c (String d _))) =>
      code a + 2 ^ 8 * code b + 2 ^ 16 * code c + 2 ^ 24 * code d
  | _ => 0
  end.

Definition cpu_with_vendor (s : string) : System :=
  {| sys_cpuid := λ _, {| eax := 0;
                          ebx := le_word s;
                          edx := le_word (String.substring 4 4 s);
                          ecx := le_word (String.substring 8 4 s) |};
     sys_file := λ _, NoFile;
     sys_open := λ _, {| open_fd := 3; open_errno := 0 |};
     sys_pread := λ _ _ _, {| pread_ret := 8; pread_data := 0 |};
     sys_gettimeofday := λ _, {| tv_sec := 0; tv_usec := 0 |};
     sys_new := λ _, zero_state |}.

(** ** Processor queries of the constructor *)

Definition SIGNATURE_MASK : Z := 0xFFFF0.
Definition IVYBRIDGE_E : Z := 0x306F0.
Definition SANDYBRIDGE_E : Z := 0x206D0.
Definition BROADWELL_E : Z := 0x406F0.

(** [Rapl::get_n_logical_cores]: leaf [0xB] (asked with [ecx = 1]). *)
Definition get_n_logical_cores (sys : System) : Z :=
  Z.land (ebx (sys_cpuid sys 0xB)) 0xFF.

(** [Rapl::get_smt], reading the member [vendor]. *)
Definition get_smt (sys : System) (vendor : Z) : Z :=
  if vendor =? 1
  then Z.shiftr (Z.land (ebx (sys_cpuid sys 0x8000001E)) 0xFF00) 8
  else 0.

(** [Rapl::detect_pp1], reading the member [vendor]. *)
Definition detect_pp1 (sys : System) (vendor : Z) : bool :=
  let cpu_signature := Z.land (eax (sys_cpuid sys 1)) SIGNATURE_MASK in
  if (vendor =? 1) || (cpu_signature =? SANDYBRIDGE_E)
     || (cpu_signature =? IVYBRIDGE_E) || (cpu_signature =? BROADWELL_E)
  then false
  else true.

(** ** Units and static power information *)

Definition MSR_RAPL_POWER_UNIT : Z := 0x606.
Definition MSR_PKG_POWER_INFO : Z := 0x614.
Definition AMD_MSR_PWR_UNIT : Z := 0xC0010299.

(** [pow(0.5, (double) k)] for the field values [k] the constructor
    passes, integers from 0 to 31: the result [2^-k] is a [double], and
    the library function returns it. *)
Definition pow_half (k : Z) : float := Z.ldexp 1 (- k).

Definition power_units_of (raw_value : Z) : float :=
  pow_half (Z.land raw_value 0xf).

Definition energy_units_of (raw_value : Z) : float :=
  pow_half (Z.land (Z.shiftr raw_value 8) 0x1f).

Definition time_units_of (raw_value : Z) : float :=
  pow_half (Z.land (Z.shiftr raw_value 16) 0xf).

(** The members of [Rapl] that the sampling functions and the queries
    above do not read, beside the ones they do ([engine]) and the arrays
    socket discovery fills ([topo]). *)
Record Rapl_object := {
  engine : Rapl;
  topo : topology;
  smt : Z;
  n_logical_cores : Z;
  power_units : float;
  time_units : float;
  thermal_spec_power : float;
  minimum_power : float;
  maximum_power : float;
  time_window : float
}.

(** [energy_units] assigned. *)
Definition with_energy_units (r : Rapl) (u : float) : Rapl :=
  {| vendor := vendor r; n_sockets := n_sockets r;
     pp1_supported := pp1_supported r; energy_units := u;
     fd := fd r;
     prev_state := prev_state r; current_state := current_state r;
     next_state := next_state r; running_total := running_total r |}.

Section Constructor.
Variables MAX_LINE MAX_CPU MAX_SOCKETS : Z.
Variable sys : System.

(** [for (int i=0; i<n_sockets; i++) open_msr(i, first_lcoreid[i]);] *)
Definition open_sockets (t : topology) (r : Rapl) : M Rapl :=
  for_loop (upto (n_sockets r))
    (λ i r, match first_lcoreid t !! i with
            | Some c => open_msr sys i c r
            | None => undefined
            end)
    r.

(** The read of the unit register; [raw_value] is assigned for the two
    vendors only. *)
Definition read_power_unit (r : Rapl) : M Z :=
  if vendor r =? 0 then read_msr sys r 0 MSR_RAPL_POWER_UNIT
  else if vendor r =? 1 then read_msr sys r 0 AMD_MSR_PWR_UNIT
  else undefined.

(** The four informational fields: thermal spec power, minimum power,
    maximum power, time window.  (For another vendor [read_power_unit]
    has already left the run without meaning.) *)
Definition read_power_info (r : Rapl) (power_units time_units : float)
  : M (float * float * float * float) :=
  if vendor r =? 0 then
    do raw_value <- read_msr sys r 0 MSR_PKG_POWER_INFO;
    ret (power_units * Z2double (Z.land raw_value 0x7fff),
         power_units * Z2double (Z.land (Z.shiftr raw_value 16) 0x7fff),
         power_units * Z2double (Z.land (Z.shiftr raw_value 32) 0x7fff),
         time_units * Z2double (Z.land (Z.shiftr raw_value 48) 0x7fff))%float
  else if vendor r =? 1 then ret (0, 0, 0, 0)%float
  else undefined.

(** [Rapl::Rapl()].  Before the constructor assigns them the descriptors
    and the records are unset, and [energy_units] is not read. *)
Definition Rapl_new : M Rapl_object :=
  let v := get_vendor sys in
  do t <- get_n_sockets MAX_LINE MAX_CPU MAX_SOCKETS sys;
  let r0 := {| vendor := v; n_sockets := count t;
               pp1_supported := detect_pp1 sys v;
               energy_units := 0%float;
               fd := ∅;
               prev_state := ∅; current_state := ∅; next_state := ∅;
               running_total := ∅ |} in
  do r1 <- open_sockets t r0;
  do raw_value <- read_power_unit r1;
  let pu := power_units_of raw_value in
  let tu := time_units_of raw_value in
  let r2 := with_energy_units r1 (energy_units_of raw_value) in
  do info <- read_power_info r2 pu tu;
  do r3 <- reset sys r2;
  ret {| engine := r3; topo := t;
         smt := get_smt sys v;
         n_logical_cores := get_n_logical_cores sys;
         power_units := pu; time_units := tu;
         thermal_spec_power := info.1.1.1;
         minimum_power := info.1.1.2;
         maximum_power := info.1.2;
         time_window := info.2 |}.

End Constructor.

(** ** Elapsed time and average power *)

(** [Rapl::total_time] and [Rapl::current_time]: on the clock of
    socket 0. *)
Definition total_time (r : Rapl) : M float :=
  do rt <- deref (running_total r) 0%nat;
  do cur <- deref (current_state r) 0%nat;
  ret (time_delta (tsc rt) (tsc cur)).

Definition current_time (r : Rapl) : M float :=
  do prv <- deref (prev_state r) 0%nat;
  do cur <- deref (current_state r) 0%nat;
  ret (time_delta (tsc prv) (tsc cur)).

Definition average_power (total_energy : Rapl → M float) (r : Rapl) : M float :=
  do e <- total_energy r;
  do t <- total_time r;
  ret (e / t)%float.

Definition pkg_average_power : Rapl → M float := average_power pkg_total_energy.
Definition pp0_average_power : Rapl → M float := average_power pp0_total_energy.
Definition pp1_average_power : Rapl → M float := average_power pp1_total_energy.
Definition dram_average_power : Rapl → M float := average_power dram_total_energy.

(** The queries by domain. *)
Definition total_energy_of (d : domain) : Rapl → M float :=
  match d with
  | PKG => pkg_total_energy | PP0 => pp0_total_energy
  | PP1 => pp1_total_energy | DRAM => dram_total_energy
  end.

Definition average_power_of (d : domain) : Rapl → M float :=
  match d with
  | PKG => pkg_average_power | PP0 => pp0_average_power
  | PP1 => pp1_average_power | DRAM => dram_average_power
  end.

(** ** More observations *)

(** The package id the topology file of CPU [c] starts with. *)
Definition package_id (sys : System) (c : Z) : option Z :=
  match sys_file sys (package_path c) with
  | Contents s => fst <$> scan_int s
  | _ => None
  end.

(** [i] is the position, in the list [cpu] of online CPUs, of the first
    CPU of package [p]. *)
Definition first_of_package (sys : System) (cpu : list Z) (p : Z) (i : nat)
  : Prop :=
  (∃ c, cpu !! i = Some c ∧ package_id sys c = Some p) ∧
  ∀ j c, (j < i)%nat → cpu !! j = Some c → package_id sys c ≠ Some p.

(** Slot [p] of the two member arrays records package [p] of the online
    CPUs [cpu]: seen, with the position of its first CPU; or not seen. *)
Definition discovered (sys : System) (cpu : list Z)
    (socks firsts : list Z) (p : nat) : Prop :=
  (socks !! p = Some 1 ∧
   ∃ i, firsts !! p = Some (Z.of_nat i) ∧
        first_of_package sys cpu (Z.of_nat p) i) ∨
  (socks !! p = Some (-1) ∧ firsts !! p = Some (-1) ∧
   ∀ c, c ∈ cpu → package_id sys c ≠ Some (Z.of_nat p)).

(** The package ids of the CPUs [cpu]. *)
Definition package_ids (sys : System) (cpu : list Z) : gset Z :=
  list_to_set (omap (package_id sys) cpu).

(** What the array [cpu] holds fits it: [int]s, no more than [MAX_CPU]
    of them. *)
Definition within_cpu_array (MAX_CPU : Z) (cpu : list Z) : Prop :=
  Forall (λ c, in_int c = true) cpu ∧
  (cpu = [] ∨ Z.of_nat (length cpu) ≤ MAX_CPU).

(** The computation ends the process with a code in [P] only. *)
Definition exits_within {A} (P : Z → Prop) (m : M A) : Prop :=
  ∀ n c, m n = Exit c → P c.

(** A snapshot as [sample] takes it under the settings of [r]: 32-bit
    counters, and 0 for the domains the vendor and [pp1_supported] leave
    unread. *)
Definition well_formed_snapshot (r : Rapl) (s : rapl_state_t) : Prop :=
  (vendor r = 0 ∨ vendor r = 1 → ∀ d, is_uint32 (field d s)) ∧
  (vendor r = 0 → pp1_supported r = true → dram s = 0) ∧
  (vendor r = 0 → pp1_supported r = false → pp1 s = 0) ∧
  (vendor r = 1 → pp0 s = 0 ∧ pp1 s = 0 ∧ dram s = 0).

(** A two-socket machine for the constructor: the unit register holds
    the fields 3, 14 and 10, the power-info register 0, and every
    counter reads [100 * k] at the [k]-th call; the processor answers
    leaf 0 with [vendor_string]. *)
Definition booting_msr (k : nat) (off : Z) : pread_result :=
  {| pread_ret := 8;
     pread_data :=
       if (off =? MSR_RAPL_POWER_UNIT) || (off =? AMD_MSR_PWR_UNIT)
       then 0xA0E03
       else if off =? MSR_PKG_POWER_INFO then 0
       else 100 * Z.of_nat k |}.

Definition booting_machine (vendor_string : string) : System :=
  {| sys_cpuid := sys_cpuid (cpu_with_vendor vendor_string);
     sys_file := files_of two_socket_files;
     sys_open := λ _, {| open_fd := 3; open_errno := 0 |};
     sys_pread := λ k _ off, booting_msr k off;
     sys_gettimeofday := λ k, {| tv_sec := Z.of_nat k; tv_usec := 0 |};
     sys_new := λ _, zero_state |}.

(** A value the constructor can decode for a unit. *)
Definition decoded_unit (u : float) : Prop :=
  ∃ k, 0 ≤ k ≤ 31 ∧ u = pow_half k.

(** The number of time-dependent calls [sample] makes when it returns:
    the register reads of the vendor and the clock. *)
Definition sample_calls (r : Rapl) : nat :=
  if vendor r =? 0 then 4 else if vendor r =? 1 then 2 else 1.

(** ** Observations on the vendor registers *)

(** [ebx], [edx] and [ecx] are [uint32_t]. *)
Definition uint32_registers (u : cpuid_regs) : Prop :=
  is_uint32 (ebx u) ∧ is_uint32 (edx u) ∧ is_uint32 (ecx u).

(** The registers hold the twelve characters of [s]: four each, the
    first in the least significant byte, in the order [ebx], [edx],
    [ecx]. *)
Definition registers_spell (u : cpuid_regs) (s : string) : Prop :=
  ebx u = le_word s ∧
  edx u = le_word (String.substring 4 4 s) ∧
  ecx u = le_word (String.substring 8 4 s).

(** * Properties *)

(** ** Running computations *)

Lemma bind_Done {A B} (m : M A) (k : A → M B) n a n' :
  m n = Done (a, n') → bind m k n = k a n'.
Proof. intros H. unfold bind. by rewrite H. Qed.

Lemma bind_Exit {A B} (m : M A) (k : A → M B) n c :
  m n = Exit c → bind m k n = Exit c.
Proof. intros H. unfold bind. by rewrite H. Qed.

Lemma bind_inv {A B} (m : M A) (k : A → M B) n b n2 :
  bind m k n = Done (b, n2) →
  ∃ a n1, m n = Done (a, n1) ∧ k a n1 = Done (b, n2).
Proof.
  unfold bind. destruct (m n) as [[a n1]| |]; [|done..].
  intros H. by exists a, n1.
Qed.

Lemma bind_assoc {A B C} (m : M A) (f : A → M B) (g : B → M C) n :
  bind (bind m f) g n = bind m (λ x, bind (f x) g) n.
Proof. unfold bind. by destruct (m n) as [[a n']| |]. Qed.

Lemma deref_Done {A} (arr : gmap nat A) i a n :
  arr !! i = Some a → deref arr i n = Done (a, n).
Proof. intros H. unfold deref. by rewrite H. Qed.

Lemma deref_inv {A} (arr : gmap nat A) i a n n' :
  deref arr i n = Done (a, n') → arr !! i = Some a ∧ n' = n.
Proof.
  unfold deref. destruct (arr !! i); [|done].
  unfold ret. intros H. by simplify_eq.
Qed.

Lemma for_loop_app {I S} (l1 l2 : list I) (body : I → S → M S) s n :
  for_loop (l1 ++ l2) body s n
  = bind (for_loop l1 body s) (for_loop l2 body) n.
Proof.
  revert s n. induction l1 as [|i l1 IH]; intros s n; [done|].
  simpl. rewrite bind_assoc. unfold bind.
  destruct (body i s n) as [[s' n']| |]; [|done..].
  apply IH.
Qed.

Lemma seq_split i n :
  (i < n)%nat → seq 0 n = seq 0 i ++ i :: seq (S i) (n - S i).
Proof.
  intros Hi. replace n with (i + S (n - S i))%nat at 1 by lia.
  by rewrite seq_app.
Qed.

(** ** The rollover-safe delta *)

Lemma wrap64_small z : 0 ≤ z < 2 ^ 64 → wrap64 z = z.
Proof. intros H. unfold wrap64. by apply Z.mod_small. Qed.

Lemma wrap64_range z : 0 ≤ wrap64 z < 2 ^ 64.
Proof. unfold wrap64. apply Z.mod_pos_bound. lia. Qed.

Lemma wrap64_add_l a b : wrap64 (wrap64 a + b) = wrap64 (a + b).
Proof. unfold wrap64. apply Zplus_mod_idemp_l. Qed.

Lemma energy_delta_nonneg before after : 0 ≤ energy_delta before after < 2 ^ 64.
Proof. unfold energy_delta. case_match; apply wrap64_range. Qed.

Lemma energy_delta_diag x : energy_delta x x = 0.
Proof.
  unfold energy_delta. rewrite Z.ltb_irrefl, Z.sub_diag. reflexivity.
Qed.

Lemma energy_delta_no_wrap before after :
  0 ≤ before ≤ after → after < 2 ^ 64 →
  energy_delta before after = after - before.
Proof.
  intros Hle Hlt. unfold energy_delta.
  destruct (Z.ltb_spec after before) as [?|_]; [lia|].
  apply wrap64_small. lia.
Qed.

Lemma energy_delta_wrapped before after :
  0 ≤ after < before → before < 2 ^ 32 →
  energy_delta before after = after + (2 ^ 32 - 1 - before).
Proof.
  intros Hlt Hb. unfold energy_delta, max_int.
  destruct (Z.ltb_spec after before) as [_|?]; [|lia].
  rewrite (wrap64_small (_ - before)) by lia.
  rewrite wrap64_small; lia.
Qed.

(** C1. For 32-bit [before] and [after], [energy_delta] is [after - before]
    when [after >= before] and [after + (2^32 - 1 - before)] when
    [after < before]; [energy_delta x x = 0] and
    [energy_delta 0 (2^32-1) = 2^32-1]. *)
Theorem energy_delta_rule (before after : Z) :
  is_uint32 before → is_uint32 after →
  (before ≤ after → energy_delta before after = after - before) ∧
  (after < before → energy_delta before after = after + (2 ^ 32 - 1 - before)) ∧
  energy_delta before before = 0 ∧
  energy_delta 0 (2 ^ 32 - 1) = 2 ^ 32 - 1.
Proof.
  unfold is_uint32. intros Hb Ha. split; [|split; [|split]].
  - intros Hle. apply energy_delta_no_wrap; lia.
  - intros Hlt. apply energy_delta_wrapped; lia.
  - apply energy_delta_diag.
  - reflexivity.
Qed.

Lemma energy_delta_rule_witness :
  energy_delta 4294967290 5 = 5 + (2 ^ 32 - 1 - 4294967290) ∧
  energy_delta 5 4294967290 = 4294967290 - 5.
Proof.
  split.
  - apply (energy_delta_rule 4294967290 5); unfold is_uint32; lia.
  - apply (energy_delta_rule 5 4294967290); unfold is_uint32; lia.
Defined.

(** The result is a 32-bit value. *)
Lemma energy_delta_range before after :
  is_uint32 before → is_uint32 after →
  0 ≤ energy_delta before after ≤ 2 ^ 32 - 1.
Proof.
  unfold is_uint32. intros Hb Ha.
  destruct (Z.le_gt_cases before after).
  - rewrite energy_delta_no_wrap; lia.
  - rewrite energy_delta_wrapped; lia.
Qed.

(** Across a wrap the result is one less than the distance the counter
    travelled modulo [2^32]. *)
Lemma energy_delta_wrapped_mod before after :
  is_uint32 before → is_uint32 after → after < before →
  energy_delta before after = (after - before) mod 2 ^ 32 - 1.
Proof.
  unfold is_uint32. intros Hb Ha Hlt.
  rewrite energy_delta_wrapped by lia.
  rewrite <- (Z.mod_add (after - before) 1 (2 ^ 32)) by lia.
  rewrite Z.mod_small; lia.
Qed.

(** Without a wrap it is that distance. *)
Lemma energy_delta_no_wrap_mod before after :
  is_uint32 before → is_uint32 after → before ≤ after →
  energy_delta before after = (after - before) mod 2 ^ 32.
Proof.
  unfold is_uint32. intros Hb Ha Hle.
  rewrite energy_delta_no_wrap, Z.mod_small; lia.
Qed.

(** C2. The counter read 1 and then 0: it advanced by [2^32 - 1], which
    is [(0 - 1) mod 2^32]; [energy_delta] answers [2^32 - 2]. *)
Theorem energy_delta_wrap_one_short :
  is_uint32 1 ∧ is_uint32 0 ∧
  (0 - 1) mod 2 ^ 32 = 4294967295 ∧
  energy_delta 1 0 = 4294967294.
Proof. unfold is_uint32. repeat split; lia || reflexivity. Qed.

(** *** The delta against the distance modulo [2^32] *)

(** X1.  For 32-bit [before] and [after] the delta is a 32-bit value; it
    is the distance [(after - before) mod 2^32] when the counter did not
    wrap and one less than that distance when it did. *)
Theorem energy_delta_mod_2_32 before after :
  is_uint32 before → is_uint32 after →
  is_uint32 (energy_delta before after) ∧
  energy_delta before after
  = (after - before) mod 2 ^ 32 - (if after <? before then 1 else 0).
Proof.
  intros Hb Ha. split.
  - pose proof (energy_delta_range _ _ Hb Ha). unfold is_uint32. lia.
  - destruct (Z.ltb_spec after before).
    + by apply energy_delta_wrapped_mod.
    + rewrite Z.sub_0_r. by apply energy_delta_no_wrap_mod.
Qed.

Lemma energy_delta_mod_2_32_witness :
  is_uint32 (energy_delta 4294967290 5) ∧
  energy_delta 4294967290 5 = (5 - 4294967290) mod 2 ^ 32 - 1.
Proof.
  apply (energy_delta_mod_2_32 4294967290 5); unfold is_uint32; lia.
Defined.

(** ** One sample *)

Lemma sample_inv sys socket r n r' n' :
  sample sys socket r n = Done (r', n') →
  ∃ nxt0 nxt1 n1 rt cur prv,
    next_state r !! socket = Some nxt0 ∧
    read_counters sys r socket nxt0 n = Done (nxt1, n1) ∧
    n' = S n1 ∧
    running_total r !! socket = Some rt ∧
    current_state r !! socket = Some cur ∧
    prev_state r !! socket = Some prv ∧
    let nxt := with_tsc nxt1 (sys_gettimeofday sys n1) in
    r' = with_states r
           (<[socket := cur]> (prev_state r))
           (<[socket := nxt]> (current_state r))
           (<[socket := prv]> (next_state r))
           (<[socket := update_running_total rt cur nxt]> (running_total r)).
Proof.
  unfold sample. intros H.
  apply bind_inv in H as (nxt0 & k0 & H0 & H). apply deref_inv in H0 as [H0 ->].
  apply bind_inv in H as (nxt1 & n1 & H1 & H).
  apply bind_inv in H as (now & k2 & H2 & H).
  unfold gettimeofday in H2. simplify_eq.
  apply bind_inv in H as (rt & k3 & H3 & H). apply deref_inv in H3 as [H3 ->].
  apply bind_inv in H as (cur & k4 & H4 & H). apply deref_inv in H4 as [H4 ->].
  apply bind_inv in H as (prv & k5 & H5 & H). apply deref_inv in H5 as [H5 ->].
  unfold ret in H. simplify_eq.
  by exists nxt0, nxt1, n1, rt, cur, prv.
Qed.

(** C4. In a call of [sample(socket)] the graphics-plane running total
    grows by the core-plane delta [energy_delta(current.pp0, next.pp0)];
    the package, core-plane and DRAM totals grow by their own deltas.
    ([next] is the snapshot the call took: the current one after it.) *)
Theorem sample_feeds_pp1_from_pp0 sys socket r n r' n' :
  sample sys socket r n = Done (r', n') →
  ∃ rt cur nxt rt',
    running_total r !! socket = Some rt ∧
    current_state r !! socket = Some cur ∧
    current_state r' !! socket = Some nxt ∧
    running_total r' !! socket = Some rt' ∧
    pp1 rt' = wrap64 (pp1 rt + energy_delta (pp0 cur) (pp0 nxt)) ∧
    pkg rt' = wrap64 (pkg rt + energy_delta (pkg cur) (pkg nxt)) ∧
    pp0 rt' = wrap64 (pp0 rt + energy_delta (pp0 cur) (pp0 nxt)) ∧
    dram rt' = wrap64 (dram rt + energy_delta (dram cur) (dram nxt)).
Proof.
  intros H. apply sample_inv in H
    as (nxt0 & nxt1 & n1 & rt & cur & prv & _ & _ & _ & Hrt & Hcur & _ & ->).
  eexists rt, cur, _, _. simpl.
  rewrite !lookup_insert_eq. done.
Qed.

(** The graphics plane advanced by 3 and the core plane by 50: both the
    core-plane and the graphics-plane totals grow by 50. *)
Lemma sample_feeds_pp1_from_pp0_witness :
  sample later_machine 0%nat (rapl_primed zero_state) 0%nat
    = Done (later_state, 4%nat) ∧
  total PP0 0%nat later_state = 50 ∧
  total PP1 0%nat later_state = 50 ∧
  ∃ rt cur nxt rt',
    running_total (rapl_primed zero_state) !! 0%nat = Some rt ∧
    current_state (rapl_primed zero_state) !! 0%nat = Some cur ∧
    current_state later_state !! 0%nat = Some nxt ∧
    running_total later_state !! 0%nat = Some rt' ∧
    pp1 rt' = wrap64 (pp1 rt + energy_delta (pp0 cur) (pp0 nxt)) ∧
    pkg rt' = wrap64 (pkg rt + energy_delta (pkg cur) (pkg nxt)) ∧
    pp0 rt' = wrap64 (pp0 rt + energy_delta (pp0 cur) (pp0 nxt)) ∧
    dram rt' = wrap64 (dram rt + energy_delta (dram cur) (dram nxt)).
Proof.
  split; [vm_compute; reflexivity|].
  split; [vm_compute; reflexivity|].
  split; [vm_compute; reflexivity|].
  apply (sample_feeds_pp1_from_pp0 later_machine 0%nat (rapl_primed zero_state)
           0%nat later_state 4%nat).
  vm_compute. reflexivity.
Defined.

(** *** A sample returns when the reads do *)

Lemma read_msr_returns sys r s f off n :
  fd r !! s = Some f →
  pread_ret (sys_pread sys n f off) = 8 →
  read_msr sys r s off n = Done (wrap64 (pread_data (sys_pread sys n f off)), S n).
Proof.
  intros Hf Hret. unfold read_msr, bind, deref. rewrite Hf. simpl.
  by rewrite Hret.
Qed.

Lemma read_counters_returns sys r s nxt n :
  is_Some (fd r !! s) → reads_succeed sys →
  ∃ nxt' n', read_counters sys r s nxt n = Done (nxt', n').
Proof.
  intros [f Hf] Hok. unfold read_counters.
  repeat case_match; eexists _, _;
    repeat (erewrite bind_Done;
            [|eapply read_msr_returns; [done|apply Hok]]);
    reflexivity.
Qed.

Lemma sample_returns sys s r n :
  allocated r s → reads_succeed sys →
  ∃ r' n', sample sys s r n = Done (r', n').
Proof.
  intros (Hfd & [prv Hp] & [cur Hc] & [nxt Hn] & [rt Hr]) Hok.
  destruct (read_counters_returns sys r s nxt n Hfd Hok) as (nxt' & n' & Hrd).
  unfold sample.
  rewrite (bind_Done _ _ _ _ _ (deref_Done _ _ _ _ Hn)).
  rewrite (bind_Done _ _ _ _ _ Hrd).
  unfold gettimeofday at 1. unfold bind at 1.
  rewrite (bind_Done _ _ _ _ _ (deref_Done _ _ _ _ Hr)).
  rewrite (bind_Done _ _ _ _ _ (deref_Done _ _ _ _ Hc)).
  rewrite (bind_Done _ _ _ _ _ (deref_Done _ _ _ _ Hp)).
  by eexists _, _.
Qed.

Lemma sample_allocated sys s r n r' n' j :
  sample sys s r n = Done (r', n') → allocated r j → allocated r' j.
Proof.
  intros H (Hfd & Hp & Hc & Hn & Hr). apply sample_inv in H
    as (nxt0 & nxt1 & n1 & rt & cur & prv & _ & _ & _ & _ & _ & _ & ->).
  repeat split; simpl; try done;
    (destruct (decide (j = s)) as [->|?];
     [rewrite lookup_insert_eq; eauto | by rewrite lookup_insert_ne]).
Qed.

Lemma sample_seq_returns sys calls r n :
  Forall (allocated r) calls → reads_succeed sys →
  ∃ rs n', sample_seq sys calls r n = Done (rs, n').
Proof.
  intros Hall Hok. revert r n Hall.
  induction calls as [|s calls IH]; intros r n Hall; [by eexists _, _|].
  apply Forall_cons in Hall as [Hs Hall].
  destruct (sample_returns sys s r n Hs Hok) as (r1 & n1 & H1).
  destruct (IH r1 n1) as (rs & n2 & H2).
  { eapply Forall_impl; [done|]. intros j. by apply sample_allocated with (1 := H1). }
  simpl. rewrite (bind_Done _ _ _ _ _ H1), (bind_Done _ _ _ _ _ H2).
  by eexists _, _.
Qed.

(** A sample of one socket leaves the others' totals alone. *)
Lemma sample_frame sys s r n r' n' :
  sample sys s r n = Done (r', n') →
  n_sockets r' = n_sockets r ∧ fd r' = fd r ∧
  ∀ j, j ≠ s → running_total r' !! j = running_total r !! j.
Proof.
  intros H. apply sample_inv in H
    as (nxt0 & nxt1 & n1 & rt & cur & prv & _ & _ & _ & _ & _ & _ & ->).
  repeat split. intros j Hj. simpl. by rewrite lookup_insert_ne.
Qed.

(** ** Running totals along a sequence of samples *)

(** One call adds to the total of [d] on socket [i] the delta of the
    counter that feeds [d]; for a socket the call does not sample that
    delta is 0. *)
Lemma sample_total sys socket d i r n r' n' :
  sample sys socket r n = Done (r', n') →
  is_uint64 (total d i r) →
  total d i r'
  = wrap64 (total d i r
            + energy_delta (counter (feed d) i r) (counter (feed d) i r')).
Proof.
  intros H Hu. apply sample_inv in H
    as (nxt0 & nxt1 & n1 & rt & cur & prv & _ & _ & _ & Hrt & Hcur & _ & ->).
  unfold total, counter in *. simpl.
  destruct (decide (i = socket)) as [->|Hne].
  - rewrite !lookup_insert_eq, Hrt, Hcur. by destruct d.
  - rewrite !lookup_insert_ne by done.
    rewrite energy_delta_diag, Z.add_0_r. symmetry. by apply wrap64_small.
Qed.

Lemma sum_deltas_nonneg d i r rs : 0 ≤ sum_deltas d i r rs.
Proof.
  revert r. induction rs as [|r' rs IH]; intros r; simpl; [lia|].
  pose proof (energy_delta_nonneg (counter d i r) (counter d i r')).
  specialize (IH r'). lia.
Qed.

Section OwnDelta.
(** A domain whose total is fed by its own counter. *)
Variable d : domain.
Hypothesis own : feed d = d.
Variables (sys : System) (i : nat).

Lemma sample_seq_total calls r n rs n' :
  sample_seq sys calls r n = Done (rs, n') →
  is_uint64 (total d i r) →
  total d i (final r rs) = wrap64 (total d i r + sum_deltas d i r rs).
Proof.
  revert r n rs. induction calls as [|s calls IH]; intros r n rs H Hu.
  - simpl in H. unfold ret in H. simplify_eq. simpl.
    rewrite Z.add_0_r. symmetry. by apply wrap64_small.
  - simpl in H.
    apply bind_inv in H as (r1 & n1 & H1 & H).
    apply bind_inv in H as (rs' & n2 & H2 & H).
    unfold ret in H. simplify_eq. simpl.
    pose proof (sample_total _ _ d i _ _ _ _ H1 Hu) as Hstep.
    rewrite own in Hstep.
    rewrite (IH _ _ _ H2) by (rewrite Hstep; apply wrap64_range).
    rewrite Hstep, wrap64_add_l. f_equal. lia.
Qed.

Lemma sample_seq_monotone calls r n rs n' :
  sample_seq sys calls r n = Done (rs, n') →
  is_uint64 (total d i r) →
  total d i r + sum_deltas d i r rs < 2 ^ 64 →
  Sorted Z.le (map (total d i) (r :: rs)).
Proof.
  revert r n rs. induction calls as [|s calls IH]; intros r n rs H Hu Hlt.
  - simpl in H. unfold ret in H. simplify_eq. simpl. repeat constructor.
  - simpl in H.
    apply bind_inv in H as (r1 & n1 & H1 & H).
    apply bind_inv in H as (rs' & n2 & H2 & H).
    unfold ret in H. simplify_eq. simpl in Hlt.
    pose proof (sample_total _ _ d i _ _ _ _ H1 Hu) as Hstep.
    rewrite own in Hstep.
    pose proof (energy_delta_nonneg (counter d i r) (counter d i r1)) as Hd1.
    pose proof (sum_deltas_nonneg d i r1 rs') as Hs.
    destruct Hu as [Hu0 Hu1].
    rewrite wrap64_small in Hstep by lia.
    change (map (total d i) (r :: r1 :: rs'))
      with (total d i r :: map (total d i) (r1 :: rs')).
    constructor.
    + apply (IH _ _ _ H2); [split; lia | lia].
    + simpl. constructor. lia.
Qed.
End OwnDelta.

(** Counters that never step back make the deltas telescope. *)
Lemma sum_deltas_telescope d i r rs :
  Sorted Z.le (map (counter d i) (r :: rs)) →
  Forall is_uint32 (map (counter d i) (r :: rs)) →
  sum_deltas d i r rs = counter d i (final r rs) - counter d i r.
Proof.
  revert r. induction rs as [|r1 rs IH]; intros r Hs Hf; simpl; [lia|].
  simpl in Hs, Hf.
  apply Sorted_inv in Hs as [Hs Hhd]. apply HdRel_inv in Hhd.
  apply Forall_cons in Hf as [Hr Hf].
  pose proof Hf as Hf'. apply Forall_cons in Hf' as [Hr1 _].
  rewrite (IH r1 Hs Hf).
  rewrite energy_delta_no_wrap; unfold is_uint32 in *; lia.
Qed.

(** *** The first [2^32] samples *)

Lemma land_max_int_uint32 v : is_uint32 (Z.land v max_int).
Proof.
  change max_int with (Z.ones 32). rewrite Z.land_ones by lia.
  apply Z.mod_pos_bound. lia.
Qed.

(** What [sample] stores in a snapshot is a 32-bit value. *)
Lemma read_counters_uint32 sys r s nxt0 n nxt n' d :
  vendor r = 0 ∨ vendor r = 1 →
  read_counters sys r s nxt0 n = Done (nxt, n') →
  is_uint32 (field d nxt).
Proof.
  intros Hv H. unfold read_counters in H.
  assert (is_uint32 0) as H0 by (unfold is_uint32; lia).
  destruct (Z.eqb_spec (vendor r) 0) as [_|Hne0].
  - apply bind_inv in H as (v_pkg & n1 & _ & H).
    apply bind_inv in H as (v_pp0 & n2 & _ & H).
    destruct (pp1_supported r);
      apply bind_inv in H as (v & n3 & _ & H);
      unfold ret in H; simplify_eq;
      destruct d; simpl; auto using land_max_int_uint32.
  - destruct (Z.eqb_spec (vendor r) 1) as [_|Hne1]; [|lia].
    apply bind_inv in H as (val & n1 & _ & H).
    unfold ret in H. simplify_eq.
    destruct d; simpl; auto using land_max_int_uint32.
Qed.

Lemma sample_counter_uint32 sys s r n r' n' d i :
  vendor r = 0 ∨ vendor r = 1 →
  sample sys s r n = Done (r', n') →
  is_uint32 (counter d i r) →
  is_uint32 (counter d i r') ∧ vendor r' = vendor r.
Proof.
  intros Hv H Hu. apply sample_inv in H
    as (nxt0 & nxt1 & n1 & rt & cur & prv & _ & Hrd & _ & _ & _ & _ & ->).
  split; [|done]. unfold counter in *. simpl.
  destruct (decide (i = s)) as [->|Hne].
  - rewrite lookup_insert_eq. simpl.
    pose proof (read_counters_uint32 _ _ _ _ _ _ _ d Hv Hrd). by destruct d.
  - by rewrite lookup_insert_ne.
Qed.

Lemma sample_seq_sum_bound sys calls d i r n rs n' :
  vendor r = 0 ∨ vendor r = 1 →
  sample_seq sys calls r n = Done (rs, n') →
  is_uint32 (counter d i r) →
  sum_deltas d i r rs ≤ Z.of_nat (length calls) * (2 ^ 32 - 1).
Proof.
  revert r n rs. induction calls as [|s calls IH]; intros r n rs Hv H Hu.
  - simpl in H. unfold ret in H. simplify_eq. simpl. lia.
  - simpl in H.
    apply bind_inv in H as (r1 & n1 & H1 & H).
    apply bind_inv in H as (rs' & n2 & H2 & H).
    unfold ret in H. simplify_eq.
    destruct (sample_counter_uint32 _ _ _ _ _ _ d i Hv H1 Hu) as [Hu1 Hv1].
    rewrite <- Hv1 in Hv.
    pose proof (IH _ _ _ Hv H2 Hu1) as Hsum.
    pose proof (energy_delta_range _ _ Hu Hu1) as Hd.
    cbn [sum_deltas length]. lia.
Qed.

(** From a total [t0] the package, core-plane and DRAM totals cannot
    wrap within [k] calls when [t0 + k * (2^32 - 1) < 2^64]: after
    [reset] that is more than [2^32] calls. *)
Lemma sample_seq_monotone_bounded sys calls d i r n rs n' :
  feed d = d →
  vendor r = 0 ∨ vendor r = 1 →
  sample_seq sys calls r n = Done (rs, n') →
  is_uint32 (counter d i r) →
  0 ≤ total d i r →
  total d i r + Z.of_nat (length calls) * (2 ^ 32 - 1) < 2 ^ 64 →
  Sorted Z.le (map (total d i) (r :: rs)).
Proof.
  intros Hd Hv H Hu H0 Hlt.
  pose proof (sample_seq_sum_bound _ _ d i _ _ _ _ Hv H Hu) as Hsum.
  apply (sample_seq_monotone d Hd sys i calls r n rs n' H); [|lia].
  pose proof (sum_deltas_nonneg d i r rs). unfold is_uint64. lia.
Qed.

(** C7, as amended.  Along any sequence of [sample] calls, for the
    package, core-plane and DRAM domains of any socket: the running
    total at the end is, modulo [2^64], the total at the start plus the
    sum of the per-step deltas; while that sum stays below [2^64] the
    total never decreases from one call to the next and is exactly that
    sum; and when the 32-bit counters never step back the sum of the
    deltas is the last counter minus the first. *)
Theorem running_total_sums_deltas sys calls d i r n rs n' :
  d ≠ PP1 →
  sample_seq sys calls r n = Done (rs, n') →
  is_uint64 (total d i r) →
  total d i (final r rs) = wrap64 (total d i r + sum_deltas d i r rs) ∧
  (total d i r + sum_deltas d i r rs < 2 ^ 64 →
     Sorted Z.le (map (total d i) (r :: rs)) ∧
     total d i (final r rs) = total d i r + sum_deltas d i r rs) ∧
  (Sorted Z.le (map (counter d i) (r :: rs)) →
   Forall is_uint32 (map (counter d i) (r :: rs)) →
     sum_deltas d i r rs = counter d i (final r rs) - counter d i r).
Proof.
  intros Hd H Hu.
  assert (feed d = d) as Hfeed by (by destruct d).
  pose proof (sample_seq_total d Hfeed sys i _ _ _ _ _ H Hu) as Htot.
  split; [done|]. split.
  - intros Hlt. split; [by eapply sample_seq_monotone|].
    rewrite Htot. apply wrap64_small.
    pose proof (sum_deltas_nonneg d i r rs). unfold is_uint64 in Hu. lia.
  - apply sum_deltas_telescope.
Qed.

Lemma running_total_sums_deltas_witness :
  let r := rapl_primed zero_state in
  sample_seq later_machine [0%nat; 0%nat] r 0%nat = Done (later_states, 8%nat) ∧
  total PKG 0%nat (final r later_states) = 1 ∧
  Sorted Z.le (map (total PKG 0%nat) (r :: later_states)) ∧
  sum_deltas PKG 0%nat r later_states
  = counter PKG 0%nat (final r later_states) - counter PKG 0%nat r.
Proof.
  intros r.
  assert (sample_seq later_machine [0%nat; 0%nat] r 0%nat
          = Done (later_states, 8%nat)) as Hrun by (vm_compute; reflexivity).
  assert (is_uint64 (total PKG 0%nat r)) as Hu by (vm_compute; split; [discriminate|reflexivity]).
  assert (PKG ≠ PP1) as Hd by discriminate.
  destruct (running_total_sums_deltas later_machine [0%nat; 0%nat] PKG 0%nat r
              0%nat later_states 8%nat Hd Hrun Hu) as (Htot & Hmono & Htel).
  destruct Hmono as [Hsorted Hsum]; [vm_compute; reflexivity|].
  split; [exact Hrun|]. split; [rewrite Hsum; vm_compute; reflexivity|].
  split; [exact Hsorted|].
  apply Htel.
  - replace (map (counter PKG 0%nat) (r :: later_states)) with [1000; 1001; 1001]
      by (vm_compute; reflexivity).
    repeat constructor; lia.
  - replace (map (counter PKG 0%nat) (r :: later_states)) with [1000; 1001; 1001]
      by (vm_compute; reflexivity).
    repeat constructor; unfold is_uint32; lia.
Defined.

(** C7 as stated fails twice.  A package accumulator at [2^64 - 1] that
    receives a delta of 1 wraps to 0, so the totals along that call are
    not non-decreasing; and with the core plane advancing by 50 and the
    graphics plane by 3 (strictly increasing, no wrap), the graphics-plane
    total after the call is 50, not its start plus the sum 3 of its
    per-step deltas. *)
Lemma running_total_wraps_and_pp1_sums_pp0 :
  (sample_seq later_machine [0%nat] (rapl_primed acc_full) 0%nat
     = Done ([wrapped_state], 4%nat) ∧
   ¬ Sorted Z.le (map (total PKG 0%nat) [rapl_primed acc_full; wrapped_state])) ∧
  (sample_seq later_machine [0%nat] (rapl_primed zero_state) 0%nat
     = Done ([later_state], 4%nat) ∧
   Sorted Z.lt (map (counter PP1 0%nat) [rapl_primed zero_state; later_state]) ∧
   total PP1 0%nat later_state
   ≠ total PP1 0%nat (rapl_primed zero_state)
     + sum_deltas PP1 0%nat (rapl_primed zero_state) [later_state]).
Proof.
  split; split; [vm_compute; reflexivity| |vm_compute; reflexivity|split].
  - replace (map (total PKG 0%nat) [rapl_primed acc_full; wrapped_state])
      with [2 ^ 64 - 1; 0] by (vm_compute; reflexivity).
    intros Hs. apply Sorted_inv in Hs as [_ Hhd]. apply HdRel_inv in Hhd. lia.
  - replace (map (counter PP1 0%nat) [rapl_primed zero_state; later_state])
      with [10; 13] by (vm_compute; reflexivity).
    repeat constructor.
  - replace (total PP1 0%nat later_state) with 50 by (vm_compute; reflexivity).
    replace (total PP1 0%nat (rapl_primed zero_state)) with 0
      by (vm_compute; reflexivity).
    replace (sum_deltas PP1 0%nat (rapl_primed zero_state) [later_state]) with 3
      by (vm_compute; reflexivity).
    lia.
Qed.

(** *** The three-slot rotation *)

(** A sample of [s] leaves the records of every other socket alone. *)
Lemma sample_frame_states sys s r n r' n' j :
  sample sys s r n = Done (r', n') → j ≠ s →
  prev_state r' !! j = prev_state r !! j ∧
  current_state r' !! j = current_state r !! j ∧
  next_state r' !! j = next_state r !! j ∧
  running_total r' !! j = running_total r !! j.
Proof.
  intros H Hj. apply sample_inv in H
    as (nxt0 & nxt1 & n1 & rt & cur & prv & _ & _ & _ & _ & _ & _ & ->).
  simpl. by rewrite !lookup_insert_ne.
Qed.

Lemma sample_settings sys s r n r' n' :
  sample sys s r n = Done (r', n') →
  vendor r' = vendor r ∧ n_sockets r' = n_sockets r ∧
  pp1_supported r' = pp1_supported r ∧ energy_units r' = energy_units r ∧
  fd r' = fd r.
Proof.
  intros H. apply sample_inv in H
    as (nxt0 & nxt1 & n1 & rt & cur & prv & _ & _ & _ & _ & _ & _ & ->).
  done.
Qed.

(** X2.  When [sample(socket)] returns, the socket's previous snapshot is
    what was its current one, its scratch record is what was its
    previous one, and its current snapshot is stamped with the clock
    reading the call took last; the records of every other socket, the
    descriptors and the settings are unchanged. *)
Theorem sample_rotates sys socket r n r' n' :
  sample sys socket r n = Done (r', n') →
  prev_state r' !! socket = current_state r !! socket ∧
  next_state r' !! socket = prev_state r !! socket ∧
  (∃ k nxt, n' = S k ∧ current_state r' !! socket = Some nxt ∧
            tsc nxt = sys_gettimeofday sys k) ∧
  (∀ j, j ≠ socket →
     prev_state r' !! j = prev_state r !! j ∧
     current_state r' !! j = current_state r !! j ∧
     next_state r' !! j = next_state r !! j ∧
     running_total r' !! j = running_total r !! j) ∧
  fd r' = fd r ∧ vendor r' = vendor r ∧ n_sockets r' = n_sockets r ∧
  pp1_supported r' = pp1_supported r ∧ energy_units r' = energy_units r.
Proof.
  intros H. pose proof (sample_settings _ _ _ _ _ _ H) as (? & ? & ? & ? & ?).
  split; [|split; [|split; [|split]]]; [..|done].
  4: { intros j Hj. by apply (sample_frame_states _ _ _ _ _ _ j H). }
  all: apply sample_inv in H
    as (nxt0 & nxt1 & n1 & rt & cur & prv & _ & _ & -> & _ & Hcur & Hprv & ->);
    simpl; rewrite lookup_insert_eq.
  - done.
  - done.
  - by eexists n1, _.
Qed.

Lemma sample_rotates_witness :
  prev_state later_state !! 0%nat = current_state (rapl_primed zero_state) !! 0%nat ∧
  next_state later_state !! 0%nat = prev_state (rapl_primed zero_state) !! 0%nat.
Proof.
  destruct (sample_rotates later_machine 0%nat (rapl_primed zero_state) 0%nat
              later_state 4%nat) as (Hp & Hn & _).
  - vm_compute. reflexivity.
  - by split.
Defined.

(** *** What a snapshot holds *)

Lemma read_counters_domains sys r s nxt0 n nxt n' :
  read_counters sys r s nxt0 n = Done (nxt, n') →
  (vendor r = 0 → pp1_supported r = true → dram nxt = 0) ∧
  (vendor r = 0 → pp1_supported r = false → pp1 nxt = 0) ∧
  (vendor r = 1 → pp0 nxt = 0 ∧ pp1 nxt = 0 ∧ dram nxt = 0).
Proof.
  unfold read_counters. intros H.
  destruct (Z.eqb_spec (vendor r) 0) as [Hv|Hv].
  - apply bind_inv in H as (v_pkg & n1 & _ & H).
    apply bind_inv in H as (v_pp0 & n2 & _ & H).
    destruct (pp1_supported r);
      apply bind_inv in H as (v & n3 & _ & H);
      unfold ret in H; simplify_eq; simpl;
      (split; [|split]); intros; (done || lia).
  - destruct (Z.eqb_spec (vendor r) 1) as [Hv1|Hv1].
    + apply bind_inv in H as (val & n1 & _ & H).
      unfold ret in H. simplify_eq. simpl.
      (split; [|split]); intros; (done || lia).
    + (split; [|split]); intros; lia.
Qed.

(** X3.  On either vendor the four counters of the snapshot a sample
    takes are 32-bit values.  On Intel, exactly the graphics plane or
    DRAM is read and the other is 0, by [pp1_supported]; on AMD only the
    package counter is read and the other three are 0. *)
Theorem sample_snapshot sys socket r n r' n' nxt :
  vendor r = 0 ∨ vendor r = 1 →
  sample sys socket r n = Done (r', n') →
  current_state r' !! socket = Some nxt →
  (is_uint32 (pkg nxt) ∧ is_uint32 (pp0 nxt) ∧
   is_uint32 (pp1 nxt) ∧ is_uint32 (dram nxt)) ∧
  (vendor r = 0 → pp1_supported r = true → dram nxt = 0) ∧
  (vendor r = 0 → pp1_supported r = false → pp1 nxt = 0) ∧
  (vendor r = 1 → pp0 nxt = 0 ∧ pp1 nxt = 0 ∧ dram nxt = 0).
Proof.
  intros Hv H Hnxt. apply sample_inv in H
    as (nxt0 & nxt1 & n1 & rt & cur & prv & _ & Hrd & _ & _ & _ & _ & ->).
  simpl in Hnxt. rewrite lookup_insert_eq in Hnxt. simplify_eq. simpl.
  split.
  - pose proof (read_counters_uint32 _ _ _ _ _ _ _ PKG Hv Hrd).
    pose proof (read_counters_uint32 _ _ _ _ _ _ _ PP0 Hv Hrd).
    pose proof (read_counters_uint32 _ _ _ _ _ _ _ PP1 Hv Hrd).
    pose proof (read_counters_uint32 _ _ _ _ _ _ _ DRAM Hv Hrd).
    done.
  - by apply read_counters_domains with (1 := Hrd).
Qed.

Lemma sample_snapshot_witness :
  ∃ nxt, current_state later_state !! 0%nat = Some nxt ∧
         is_uint32 (pp1 nxt) ∧ dram nxt = 0.
Proof.
  eexists. split; [vm_compute; reflexivity|].
  edestruct (sample_snapshot later_machine 0%nat (rapl_primed zero_state) 0%nat
               later_state 4%nat) as ((_ & _ & Hpp1 & _) & Hdram & _).
  - by left.
  - vm_compute. reflexivity.
  - vm_compute. reflexivity.
  - split; [exact Hpp1|]. by apply Hdram.
Defined.

(** *** How a sample ends *)

Lemma read_msr_outcome sys r s f off n :
  fd r !! s = Some f →
  (pread_ret (sys_pread sys n f off) = 8 ∧
   read_msr sys r s off n
   = Done (wrap64 (pread_data (sys_pread sys n f off)), S n)) ∨
  (pread_ret (sys_pread sys n f off) ≠ 8 ∧
   read_msr sys r s off n = Exit 127).
Proof.
  intros Hf. unfold read_msr, bind, deref. rewrite Hf. simpl.
  destruct (Z.eqb_spec (pread_ret (sys_pread sys n f off)) 8); auto.
Qed.

Lemma read_counters_outcome sys r s nxt0 n :
  is_Some (fd r !! s) →
  (∃ nxt, read_counters sys r s nxt0 n
          = Done (nxt, (n + (sample_calls r - 1))%nat)) ∨
  read_counters sys r s nxt0 n = Exit 127.
Proof.
  intros [f Hf]. unfold read_counters, sample_calls.
  destruct (vendor r =? 0).
  - destruct (read_msr_outcome sys r s f MSR_PKG_ENERGY_STATUS n Hf)
      as [[_ H1]|[_ H1]]; [|right; by apply bind_Exit].
    rewrite (bind_Done _ _ _ _ _ H1).
    destruct (read_msr_outcome sys r s f MSR_PP0_ENERGY_STATUS (S n) Hf)
      as [[_ H2]|[_ H2]]; [|right; by apply bind_Exit].
    rewrite (bind_Done _ _ _ _ _ H2).
    destruct (pp1_supported r).
    + destruct (read_msr_outcome sys r s f MSR_PP1_ENERGY_STATUS (S (S n)) Hf)
        as [[_ H3]|[_ H3]]; [|right; by apply bind_Exit].
      rewrite (bind_Done _ _ _ _ _ H3). left. eexists. unfold ret.
      do 2 f_equal. lia.
    + destruct (read_msr_outcome sys r s f MSR_DRAM_ENERGY_STATUS (S (S n)) Hf)
        as [[_ H3]|[_ H3]]; [|right; by apply bind_Exit].
      rewrite (bind_Done _ _ _ _ _ H3). left. eexists. unfold ret.
      do 2 f_equal. lia.
  - destruct (vendor r =? 1).
    + destruct (read_msr_outcome sys r s f AMD_MSR_PACKAGE_ENERGY n Hf)
        as [[_ H1]|[_ H1]]; [|right; by apply bind_Exit].
      rewrite (bind_Done _ _ _ _ _ H1). left. eexists. unfold ret.
      do 2 f_equal. lia.
    + left. exists nxt0. unfold ret. do 2 f_equal. lia.
Qed.

(** X4.  On a socket that has its descriptor and its records,
    [sample(socket)] either returns, after three register reads and one
    clock reading on Intel and one register read and one clock reading
    on AMD, or ends the process with code 127; nothing else. *)
Theorem sample_outcome sys socket r n :
  allocated r socket →
  (∃ r', sample sys socket r n = Done (r', (n + sample_calls r)%nat)) ∨
  sample sys socket r n = Exit 127.
Proof.
  intros (Hfd & [prv Hp] & [cur Hc] & [nxt Hn] & [rt Hr]).
  unfold sample.
  rewrite (bind_Done _ _ _ _ _ (deref_Done _ _ _ _ Hn)).
  destruct (read_counters_outcome sys r socket nxt n Hfd) as [[nxt1 Hrd]|Hrd];
    [|right; by apply bind_Exit].
  left. rewrite (bind_Done _ _ _ _ _ Hrd).
  unfold gettimeofday at 1. unfold bind at 1.
  rewrite (bind_Done _ _ _ _ _ (deref_Done _ _ _ _ Hr)).
  rewrite (bind_Done _ _ _ _ _ (deref_Done _ _ _ _ Hc)).
  rewrite (bind_Done _ _ _ _ _ (deref_Done _ _ _ _ Hp)).
  eexists. unfold ret. do 2 f_equal.
  unfold sample_calls. repeat case_match; lia.
Qed.

Lemma sample_outcome_witness :
  (∃ r', sample later_machine 0%nat (rapl_primed zero_state) 0%nat
         = Done (r', 4%nat)) ∨
  sample later_machine 0%nat (rapl_primed zero_state) 0%nat = Exit 127.
Proof.
  apply (sample_outcome later_machine 0%nat (rapl_primed zero_state) 0%nat).
  repeat split; vm_compute; eauto.
Defined.

(** *** A sample of all sockets *)

Lemma sample_loop_frame sys idx r n r' n' j :
  j ∉ idx →
  for_loop idx (sample sys) r n = Done (r', n') →
  prev_state r' !! j = prev_state r !! j ∧
  current_state r' !! j = current_state r !! j ∧
  next_state r' !! j = next_state r !! j ∧
  running_total r' !! j = running_total r !! j.
Proof.
  revert r n. induction idx as [|s idx IH]; intros r n Hj H; simpl in H.
  - unfold ret in H. by simplify_eq.
  - apply bind_inv in H as (r1 & n1 & H1 & H).
    apply not_elem_of_cons in Hj as [Hne Hj].
    destruct (IH _ _ Hj H) as (-> & -> & -> & ->).
    by apply (sample_frame_states _ _ _ _ _ _ j H1).
Qed.

Lemma sample_loop_once sys idx r n r' n' i :
  NoDup idx → i ∈ idx →
  for_loop idx (sample sys) r n = Done (r', n') →
  prev_state r' !! i = current_state r !! i ∧
  next_state r' !! i = prev_state r !! i ∧
  ∃ rt cur nxt,
    running_total r !! i = Some rt ∧
    current_state r !! i = Some cur ∧
    current_state r' !! i = Some nxt ∧
    running_total r' !! i = Some (update_running_total rt cur nxt).
Proof.
  revert r n. induction idx as [|s idx IH]; intros r n Hnd Hi H.
  - by apply elem_of_nil in Hi.
  - simpl in H. apply bind_inv in H as (r1 & n1 & H1 & H).
    apply NoDup_cons in Hnd as [Hs Hnd].
    destruct (decide (i = s)) as [->|Hne].
    + destruct (sample_loop_frame _ _ _ _ _ _ s Hs H) as (-> & -> & -> & ->).
      apply sample_inv in H1
        as (nxt0 & nxt1 & k & rt & cur & prv & _ & _ & _ & Hrt & Hcur & Hprv & ->).
      simpl. rewrite !lookup_insert_eq. repeat split; [done..|].
      by eexists rt, cur, _.
    + apply elem_of_cons in Hi as [?|Hi]; [done|].
      destruct (sample_frame_states _ _ _ _ _ _ i H1 Hne) as (Hp & Hc & _ & Ht).
      rewrite <- Hp, <- Hc, <- Ht. by apply (IH r1 n1).
Qed.

(** X5.  When [sample()] returns, each socket below [n_sockets] has been
    sampled exactly once: its snapshots are rotated by one step and its
    running totals have received one increment each, computed between
    its old and its new current snapshot; the records of the sockets
    from [n_sockets] on are untouched. *)
Theorem sample_all_once_per_socket sys r n r' n' i :
  sample_all sys r n = Done (r', n') →
  (0 ≤ Z.of_nat i < n_sockets r →
     prev_state r' !! i = current_state r !! i ∧
     next_state r' !! i = prev_state r !! i ∧
     ∃ rt cur nxt,
       running_total r !! i = Some rt ∧
       current_state r !! i = Some cur ∧
       current_state r' !! i = Some nxt ∧
       running_total r' !! i = Some (update_running_total rt cur nxt)) ∧
  (n_sockets r ≤ Z.of_nat i →
     prev_state r' !! i = prev_state r !! i ∧
     current_state r' !! i = current_state r !! i ∧
     next_state r' !! i = next_state r !! i ∧
     running_total r' !! i = running_total r !! i).
Proof.
  unfold sample_all, upto. intros H. split; intros Hi.
  - apply (sample_loop_once _ _ _ _ _ _ i (NoDup_seq _ _)) in H; [done|].
    apply elem_of_seq. lia.
  - apply (sample_loop_frame _ _ _ _ _ _ i) in H; [done|].
    rewrite elem_of_seq. lia.
Qed.

Lemma sample_all_once_per_socket_witness :
  sample_all later_machine (rapl_primed zero_state) 0%nat
    = Done (later_state, 4%nat) ∧
  prev_state later_state !! 0%nat = current_state (rapl_primed zero_state) !! 0%nat ∧
  running_total later_state !! 5%nat = running_total (rapl_primed zero_state) !! 5%nat.
Proof.
  assert (sample_all later_machine (rapl_primed zero_state) 0%nat
          = Done (later_state, 4%nat)) as Hrun by (vm_compute; reflexivity).
  split; [exact Hrun|]. split.
  - destruct (sample_all_once_per_socket later_machine (rapl_primed zero_state)
                0%nat later_state 4%nat 0%nat Hrun) as [H _].
    apply H. simpl. lia.
  - destruct (sample_all_once_per_socket later_machine (rapl_primed zero_state)
                0%nat later_state 4%nat 5%nat Hrun) as [_ H].
    apply H. simpl. lia.
Defined.

(** ** reset *)

Lemma reset_socket_inv sys i r n r' n' :
  reset_socket sys i r n = Done (r', n') →
  n_sockets r' = n_sockets r ∧
  (∀ j, j ≠ i → running_total r' !! j = running_total r !! j) ∧
  ∃ rt k,
    running_total r' !! i = Some rt ∧
    pkg rt = 0 ∧ pp0 rt = 0 ∧ dram rt = 0 ∧
    tsc rt = sys_gettimeofday sys k ∧ n' = S k.
Proof.
  unfold reset_socket. intros H.
  apply bind_inv in H as (p & k1 & _ & H).
  apply bind_inv in H as (c & k2 & _ & H).
  apply bind_inv in H as (nx & k3 & _ & H).
  apply bind_inv in H as (t & k4 & _ & H).
  apply bind_inv in H as (r1 & k5 & H1 & H).
  apply bind_inv in H as (r2 & k6 & H2 & H).
  apply bind_inv in H as (rt & k7 & Hrt & H). apply deref_inv in Hrt as [Hrt ->].
  apply bind_inv in H as (now & k8 & Hnow & H).
  unfold gettimeofday in Hnow. unfold ret in H. simplify_eq. simpl.
  apply sample_frame in H1 as (Hn1 & _ & Hf1).
  apply sample_frame in H2 as (Hn2 & _ & Hf2).
  split; [by rewrite Hn2, Hn1|]. split.
  - intros j Hj. rewrite lookup_insert_ne by done.
    rewrite Hf2, Hf1 by done. simpl. by rewrite lookup_insert_ne.
  - eexists _, k6. rewrite lookup_insert_eq. by repeat split.
Qed.

Lemma reset_loop_inv sys k r n r' n' :
  for_loop (seq 0 k) (reset_socket sys) r n = Done (r', n') →
  n_sockets r' = n_sockets r ∧
  ∀ i, (i < k)%nat →
    ∃ rt t,
      running_total r' !! i = Some rt ∧
      pkg rt = 0 ∧ pp0 rt = 0 ∧ dram rt = 0 ∧
      tsc rt = sys_gettimeofday sys t.
Proof.
  revert r' n'. induction k as [|k IH]; intros r' n' H.
  - simpl in H. unfold ret in H. simplify_eq. split; [done|]. intros i Hi. lia.
  - rewrite seq_S, for_loop_app in H. simpl in H.
    apply bind_inv in H as (r1 & n1 & H1 & H).
    apply bind_inv in H as (r2 & n2 & H2 & H).
    unfold ret in H. simplify_eq.
    apply IH in H1 as [Hn1 Hz].
    apply reset_socket_inv in H2 as (Hn2 & Hframe & rt & t & Hrt & Hzero).
    split; [by rewrite Hn2|]. intros i Hi.
    destruct (decide (i = k)) as [->|Hne].
    + exists rt, t. destruct Hzero as (? & ? & ? & ? & _). done.
    + rewrite Hframe by done. apply Hz. lia.
Qed.

(** What [reset] does zero: after it, on every socket, the package,
    core-plane and DRAM accumulators are 0 and the start timestamp is a
    reading of the clock taken during the call. *)
Lemma reset_zeroes_pkg_pp0_dram sys r n r' n' i :
  reset sys r n = Done (r', n') →
  0 ≤ Z.of_nat i < n_sockets r →
  ∃ rt t,
    running_total r' !! i = Some rt ∧
    pkg rt = 0 ∧ pp0 rt = 0 ∧ dram rt = 0 ∧
    tsc rt = sys_gettimeofday sys t.
Proof.
  unfold reset, upto. intros H Hi.
  apply reset_loop_inv in H as [_ H]. apply H. lia.
Qed.

(** C3.  [reset] on a machine whose fresh storage is zeroed and whose
    counters read 400, 500, 600 at the first priming sample and 800,
    900, 1000 at the second: the package, core-plane and DRAM
    accumulators are 0 afterwards and the start timestamp is the last
    clock reading, but the graphics-plane accumulator, which [reset]
    does not assign, holds the two priming deltas of the core plane,
    500 + 400, and the graphics-plane cumulative energy is not 0. *)
Theorem reset_leaves_pp1_total :
  reset ticking_machine rapl_unallocated 0%nat = Done (reset_state, 13%nat) ∧
  running_total reset_state !! 0%nat
    = Some {| pkg := 0; pp0 := 0; pp1 := 900; dram := 0;
              tsc := sys_gettimeofday ticking_machine 12 |} ∧
  pkg_total_energy reset_state 13%nat = Done (0%float, 13%nat) ∧
  pp0_total_energy reset_state 13%nat = Done (0%float, 13%nat) ∧
  dram_total_energy reset_state 13%nat = Done (0%float, 13%nat) ∧
  pp1_total_energy reset_state 13%nat = Done (0.054931640625%float, 13%nat).
Proof. repeat split; vm_compute; reflexivity. Qed.

(** *** What [reset] leaves behind *)

Lemma reset_socket_full sys i r n r' n' :
  reset_socket sys i r n = Done (r', n') →
  (vendor r' = vendor r ∧ n_sockets r' = n_sockets r ∧
   pp1_supported r' = pp1_supported r ∧ energy_units r' = energy_units r ∧
   fd r' = fd r) ∧
  (∀ j, j ≠ i →
     prev_state r' !! j = prev_state r !! j ∧
     current_state r' !! j = current_state r !! j ∧
     next_state r' !! j = next_state r !! j ∧
     running_total r' !! j = running_total r !! j) ∧
  ∃ prv cur nxt rt k,
    prev_state r' !! i = Some prv ∧ current_state r' !! i = Some cur ∧
    next_state r' !! i = Some nxt ∧ running_total r' !! i = Some rt ∧
    pkg rt = 0 ∧ pp0 rt = 0 ∧ dram rt = 0 ∧
    tsc cur = sys_gettimeofday sys k ∧ tsc rt = sys_gettimeofday sys (S k) ∧
    n' = S (S k) ∧
    well_formed_snapshot r prv ∧ well_formed_snapshot r cur.
Proof.
  unfold reset_socket. intros H.
  apply bind_inv in H as (p & k1 & _ & H).
  apply bind_inv in H as (c & k2 & _ & H).
  apply bind_inv in H as (nx & k3 & _ & H).
  apply bind_inv in H as (t & k4 & _ & H).
  apply bind_inv in H as (r1 & k5 & H1 & H).
  apply bind_inv in H as (r2 & k6 & H2 & H).
  apply bind_inv in H as (rt & k7 & Hrt & H). apply deref_inv in Hrt as [Hrt ->].
  apply bind_inv in H as (now & k8 & Hnow & H).
  unfold gettimeofday in Hnow. unfold ret in H. simplify_eq.
  pose proof (sample_settings _ _ _ _ _ _ H1) as (Hv1 & Hn1 & Hs1 & He1 & Hf1).
  pose proof (sample_settings _ _ _ _ _ _ H2) as (Hv2 & Hn2 & Hs2 & He2 & Hf2).
  split; [|split].
  - simpl. rewrite Hv2, Hn2, Hs2, He2, Hf2, Hv1, Hn1, Hs1, He1, Hf1. done.
  - intros j Hj. simpl. rewrite lookup_insert_ne by done.
    destruct (sample_frame_states _ _ _ _ _ _ j H2 Hj) as (-> & -> & -> & ->).
    destruct (sample_frame_states _ _ _ _ _ _ j H1 Hj) as (-> & -> & -> & ->).
    simpl. by rewrite !lookup_insert_ne.
  - apply sample_inv in H1
      as (a0 & a1 & ka & rta & cura & prva & _ & Hrd1 & -> & _ & _ & _ & ->).
    apply sample_inv in H2
      as (b0 & b1 & kb & rtb & curb & prvb & Hb0 & Hrd2 & -> & _ & Hcb & Hpb & ->).
    simpl in *. rewrite lookup_insert_eq in Hcb, Hpb, Hb0. simplify_eq.
    eexists _, _, _, _, kb. rewrite !lookup_insert_eq.
    repeat (split; [reflexivity|]).
    unfold well_formed_snapshot. split; split.
    + intros Hv d.
      pose proof (read_counters_uint32 _ _ _ _ _ _ _ d Hv Hrd1). by destruct d.
    + exact (read_counters_domains _ _ _ _ _ _ _ Hrd1).
    + intros Hv d.
      pose proof (read_counters_uint32 _ _ _ _ _ _ _ d Hv Hrd2). by destruct d.
    + exact (read_counters_domains _ _ _ _ _ _ _ Hrd2).
Qed.

Lemma reset_loop_full sys k r n r' n' :
  for_loop (seq 0 k) (reset_socket sys) r n = Done (r', n') →
  (vendor r' = vendor r ∧ n_sockets r' = n_sockets r ∧
   pp1_supported r' = pp1_supported r ∧ energy_units r' = energy_units r ∧
   fd r' = fd r) ∧
  ∀ i, (i < k)%nat →
    ∃ prv cur nxt rt t,
      prev_state r' !! i = Some prv ∧ current_state r' !! i = Some cur ∧
      next_state r' !! i = Some nxt ∧ running_total r' !! i = Some rt ∧
      pkg rt = 0 ∧ pp0 rt = 0 ∧ dram rt = 0 ∧
      tsc cur = sys_gettimeofday sys t ∧ tsc rt = sys_gettimeofday sys (S t) ∧
      well_formed_snapshot r prv ∧ well_formed_snapshot r cur.
Proof.
  revert r' n'. induction k as [|k IH]; intros r' n' H.
  - simpl in H. unfold ret in H. simplify_eq. split; [done|]. intros i Hi. lia.
  - rewrite seq_S, for_loop_app in H. simpl in H.
    apply bind_inv in H as (r1 & n1 & H1 & H).
    apply bind_inv in H as (r2 & n2 & H2 & H).
    unfold ret in H. simplify_eq.
    apply IH in H1 as [(Hv & Hn & Hs & He & Hf) Hz].
    apply reset_socket_full in H2
      as ((Hv2 & Hn2 & Hs2 & He2 & Hf2) & Hframe
          & prv & cur & nxt & rt & t & Hp & Hc & Hx & Hrt & Hz1 & Hz2 & Hz3
          & Ht1 & Ht2 & _ & Hwp & Hwc).
    split; [by rewrite Hv2, Hn2, Hs2, He2, Hf2|]. intros i Hi.
    destruct (decide (i = k)) as [->|Hne].
    + exists prv, cur, nxt, rt, t.
      unfold well_formed_snapshot in *. rewrite <- Hv, <- Hs. done.
    + destruct (Hframe i Hne) as (-> & -> & -> & ->). apply Hz. lia.
Qed.

(** X6.  When [reset()] returns, every socket below [n_sockets] has its
    three snapshot records and its running total; the package,
    core-plane and DRAM accumulators are 0; and on either vendor the
    previous and the current snapshot hold 32-bit counter values, read
    by the two priming samples. *)
Theorem reset_primes_and_zeroes sys r n r' n' i :
  reset sys r n = Done (r', n') →
  0 ≤ Z.of_nat i < n_sockets r →
  ∃ prv cur nxt rt,
    prev_state r' !! i = Some prv ∧ current_state r' !! i = Some cur ∧
    next_state r' !! i = Some nxt ∧ running_total r' !! i = Some rt ∧
    pkg rt = 0 ∧ pp0 rt = 0 ∧ dram rt = 0 ∧
    (vendor r = 0 ∨ vendor r = 1 →
       ∀ d, is_uint32 (field d prv) ∧ is_uint32 (field d cur)).
Proof.
  unfold reset, upto. intros H Hi.
  apply reset_loop_full in H as [_ H].
  destruct (H i) as (prv & cur & nxt & rt & t & Hp & Hc & Hx & Hr
                     & Hz1 & Hz2 & Hz3 & _ & _ & [Hup _] & [Huc _]); [lia|].
  exists prv, cur, nxt, rt. repeat (split; [done|]).
  intros Hv d. split; [by apply Hup|by apply Huc].
Qed.

Lemma reset_primes_and_zeroes_witness :
  ∃ prv cur nxt rt,
    prev_state reset_state !! 0%nat = Some prv ∧
    current_state reset_state !! 0%nat = Some cur ∧
    next_state reset_state !! 0%nat = Some nxt ∧
    running_total reset_state !! 0%nat = Some rt ∧
    pkg rt = 0 ∧ pp0 rt = 0 ∧ dram rt = 0 ∧
    ∀ d, is_uint32 (field d prv) ∧ is_uint32 (field d cur).
Proof.
  destruct (reset_primes_and_zeroes ticking_machine rapl_unallocated 0%nat
              reset_state 13%nat 0%nat)
    as (prv & cur & nxt & rt & Hp & Hc & Hn & Hr & H1 & H2 & H3 & Hu).
  - vm_compute. reflexivity.
  - simpl. lia.
  - exists prv, cur, nxt, rt. repeat split; try done; apply Hu; by left.
Defined.

(** X7.  When [reset()] returns, the start timestamp of a socket's
    running total is the clock reading that directly follows the one
    stamped on its current snapshot: accumulation starts after the
    snapshot [total_time] measures up to. *)
Theorem reset_start_follows_snapshot sys r n r' n' i :
  reset sys r n = Done (r', n') →
  0 ≤ Z.of_nat i < n_sockets r →
  ∃ cur rt k,
    current_state r' !! i = Some cur ∧ running_total r' !! i = Some rt ∧
    tsc cur = sys_gettimeofday sys k ∧
    tsc rt = sys_gettimeofday sys (S k).
Proof.
  unfold reset, upto. intros H Hi.
  apply reset_loop_full in H as [_ H].
  destruct (H i) as (prv & cur & nxt & rt & t & _ & Hc & _ & Hr
                     & _ & _ & _ & Ht1 & Ht2 & _); [lia|].
  by exists cur, rt, t.
Qed.

Lemma reset_start_follows_snapshot_witness :
  ∃ cur rt k,
    current_state reset_state !! 0%nat = Some cur ∧
    running_total reset_state !! 0%nat = Some rt ∧
    tsc cur = sys_gettimeofday ticking_machine k ∧
    tsc rt = sys_gettimeofday ticking_machine (S k).
Proof.
  apply (reset_start_follows_snapshot ticking_machine rapl_unallocated 0%nat
           reset_state 13%nat 0%nat).
  - vm_compute. reflexivity.
  - simpl. lia.
Defined.

(** *** [reset] returns when the reads do *)

Lemma reset_socket_returns sys i r n :
  is_Some (fd r !! i) → reads_succeed sys →
  ∃ r' n', reset_socket sys i r n = Done (r', n').
Proof.
  intros Hfd Hok. unfold reset_socket.
  unfold new_rapl_state_t at 1. unfold bind at 1.
  unfold new_rapl_state_t at 1. unfold bind at 1.
  unfold new_rapl_state_t at 1. unfold bind at 1.
  unfold new_rapl_state_t at 1. unfold bind at 1.
  match goal with |- context [sample sys i ?r0] => set (s0 := r0) end.
  assert (allocated s0 i) as Ha0.
  { repeat split; [done|..]; simpl; rewrite lookup_insert_eq; eauto. }
  destruct (sample_returns sys i s0 (S (S (S (S n)))) Ha0 Hok) as (r1 & n1 & H1).
  pose proof (sample_allocated _ _ _ _ _ _ i H1 Ha0) as Ha1.
  destruct (sample_returns sys i r1 n1 Ha1 Hok) as (r2 & n2 & H2).
  pose proof (sample_allocated _ _ _ _ _ _ i H2 Ha1) as (_ & _ & _ & _ & [rt Hrt]).
  rewrite (bind_Done _ _ _ _ _ H1), (bind_Done _ _ _ _ _ H2).
  rewrite (bind_Done _ _ _ _ _ (deref_Done _ _ _ _ Hrt)).
  unfold gettimeofday at 1. unfold bind at 1. by eexists _, _.
Qed.

Lemma reset_loop_returns sys idx r n :
  (∀ i, i ∈ idx → is_Some (fd r !! i)) → reads_succeed sys →
  ∃ r' n', for_loop idx (reset_socket sys) r n = Done (r', n').
Proof.
  intros Hfd Hok. revert r n Hfd.
  induction idx as [|i idx IH]; intros r n Hfd; [by eexists _, _|].
  destruct (reset_socket_returns sys i r n) as (r1 & n1 & H1); [|done|].
  { apply Hfd. left. }
  pose proof (reset_socket_full _ _ _ _ _ _ H1) as ((_ & _ & _ & _ & Hf) & _).
  destruct (IH r1 n1) as (r' & n' & H).
  { intros j Hj. rewrite Hf. apply Hfd. by right. }
  simpl. rewrite (bind_Done _ _ _ _ _ H1). by eexists _, _.
Qed.

(** X8.  When every socket below [n_sockets] has a descriptor and every
    register read returns its 8 bytes, [reset()] returns, and after it
    each of these sockets has what [sample] needs. *)
Theorem reset_returns sys r n :
  (∀ i, 0 ≤ Z.of_nat i < n_sockets r → is_Some (fd r !! i)) →
  reads_succeed sys →
  ∃ r' n', reset sys r n = Done (r', n') ∧
           ∀ i, 0 ≤ Z.of_nat i < n_sockets r → allocated r' i.
Proof.
  intros Hfd Hok.
  destruct (reset_loop_returns sys (upto (n_sockets r)) r n) as (r' & n' & H);
    [|done|].
  { intros i Hi. apply Hfd. unfold upto in Hi. apply elem_of_seq in Hi. lia. }
  exists r', n'. split; [done|]. intros i Hi.
  unfold upto in H. apply reset_loop_full in H as [(_ & _ & _ & _ & Hf) H].
  destruct (H i) as (prv & cur & nxt & rt & t & Hp & Hc & Hx & Hr & _); [lia|].
  unfold allocated. rewrite Hf, Hp, Hc, Hx, Hr. repeat split; eauto.
Qed.

Lemma reset_returns_witness :
  ∃ r' n', reset ticking_machine rapl_unallocated 0%nat = Done (r', n') ∧
           ∀ i, 0 ≤ Z.of_nat i < n_sockets rapl_unallocated → allocated r' i.
Proof.
  apply (reset_returns ticking_machine rapl_unallocated 0%nat).
  - intros i Hi. simpl in Hi. assert (i = 0%nat) as -> by lia.
    vm_compute. eauto.
  - intros k f off. reflexivity.
Defined.

(** ** Instantaneous power *)

Lemma time_delta_same t : time_delta t t = 0%float.
Proof. unfold time_delta. by rewrite !Z.sub_diag. Qed.

(** The guard of [power]: no division when the elapsed time is zero. *)
Lemma power_zero_elapsed r before after t :
  PrimFloat.eqb t 0 = true → power r before after t = 0%float.
Proof. intros H. unfold power. by rewrite H. Qed.

(** With zero elapsed time on every socket the loop of a
    [*_current_power] query ends with [p = 0]. *)
Lemma current_power_loop_zero d r n :
  (∀ i, i ∈ upto (n_sockets r) →
     ∃ t, elapsed r i = Some t ∧ PrimFloat.eqb t 0 = true) →
  current_power_loop d r n = Done (0%float, n).
Proof.
  unfold current_power_loop. induction (upto (n_sockets r)) as [|i idx IH];
    intros Hall; [done|].
  destruct (Hall i) as (t & Hel & Ht); [left|].
  unfold elapsed in Hel.
  destruct (prev_state r !! i) as [prv|] eqn:Hp; [|done].
  destruct (current_state r !! i) as [cur|] eqn:Hc; [|done].
  simplify_eq. simpl.
  rewrite bind_assoc, (bind_Done _ _ _ _ _ (deref_Done _ _ _ _ Hp)).
  rewrite bind_assoc, (bind_Done _ _ _ _ _ (deref_Done _ _ _ _ Hc)).
  rewrite (power_zero_elapsed _ _ _ _ Ht).
  unfold bind at 1, ret at 1.
  change (0 + 0)%float with 0%float.
  apply IH. intros j Hj. apply Hall. by right.
Qed.

(** X9.  When the elapsed time between the previous and the current
    snapshot is zero on every socket, the package, core-plane and DRAM
    instantaneous-power queries return exactly 0. *)
Lemma current_power_zero_elapsed r n :
  (∀ i, i ∈ upto (n_sockets r) →
     ∃ t, elapsed r i = Some t ∧ PrimFloat.eqb t 0 = true) →
  pkg_current_power r n = Done (0%float, n) ∧
  pp0_current_power r n = Done (0%float, n) ∧
  dram_current_power r n = Done (0%float, n).
Proof.
  intros H. unfold pkg_current_power, pp0_current_power, dram_current_power.
  by rewrite !(bind_Done _ _ _ _ _ (current_power_loop_zero _ r n H)).
Qed.

Lemma current_power_zero_elapsed_witness :
  pkg_current_power (rapl_primed zero_state) 0%nat = Done (0%float, 0%nat) ∧
  pp0_current_power (rapl_primed zero_state) 0%nat = Done (0%float, 0%nat) ∧
  dram_current_power (rapl_primed zero_state) 0%nat = Done (0%float, 0%nat).
Proof.
  apply (current_power_zero_elapsed (rapl_primed zero_state) 0%nat).
  intros i Hi. assert (i = 0%nat) as ->.
  { unfold upto in Hi. simpl in Hi. by apply list_elem_of_singleton in Hi. }
  exists 0%float. split; vm_compute; reflexivity.
Defined.

Lemma current_power_loop_no_exit d r n c :
  current_power_loop d r n ≠ Exit c.
Proof.
  unfold current_power_loop. generalize 0%float as p.
  induction (upto (n_sockets r)) as [|i idx IH]; intros p; [done|].
  simpl. unfold bind at 1. unfold bind at 1. unfold deref at 1.
  destruct (prev_state r !! i); [|done]. simpl.
  unfold bind at 1. unfold deref at 1.
  destruct (current_state r !! i); [|done]. simpl. apply IH.
Qed.

(** [pp1_current_power] has no [return]: no call of it yields a value. *)
Lemma pp1_current_power_undefined r n : pp1_current_power r n = Undefined.
Proof.
  unfold pp1_current_power, bind.
  pose proof (current_power_loop_no_exit pp1 r n) as Hne.
  destruct (current_power_loop pp1 r n) as [[p n']|c|]; [done| |done].
  by destruct (Hne c).
Qed.

(** C6.  On a primed one-socket object whose previous and current
    snapshots carry the same timestamp, the package, core-plane and DRAM
    queries return exactly 0; the graphics-plane query runs the same
    loop and then reaches the end of its body without returning. *)
Theorem pp1_current_power_returns_nothing :
  let r := rapl_primed zero_state in
  elapsed r 0%nat = Some 0%float ∧
  pkg_current_power r 0%nat = Done (0%float, 0%nat) ∧
  pp0_current_power r 0%nat = Done (0%float, 0%nat) ∧
  dram_current_power r 0%nat = Done (0%float, 0%nat) ∧
  current_power_loop pp1 r 0%nat = Done (0%float, 0%nat) ∧
  pp1_current_power r 0%nat = Undefined.
Proof. repeat split; vm_compute; reflexivity. Qed.

(** ** Units *)

Ltac unit_cases k :=
  destruct k as [|k|k]; [| |lia];
  [|do 5 (try destruct k as [k|k|])]; try lia.

Lemma decoded_unit_bounds u :
  decoded_unit u → PrimFloat.ltb 0 u = true ∧ PrimFloat.leb u 1 = true.
Proof.
  intros (k & Hk & ->). unit_cases k; by vm_compute.
Qed.

(** An accumulator at 0 adds nothing to a sum that is 0. *)
Lemma decoded_unit_times_zero u :
  decoded_unit u → (0 + u * Z2double 0)%float = 0%float.
Proof.
  intros (k & Hk & ->). unit_cases k; by vm_compute.
Qed.

Lemma land_ones_range a n : 0 ≤ n → 0 ≤ Z.land a (Z.ones n) ≤ 2 ^ n - 1.
Proof.
  intros Hn. rewrite Z.land_ones by done.
  pose proof (Z.mod_pos_bound a (2 ^ n)). lia.
Qed.

Lemma units_decoded raw_value :
  decoded_unit (power_units_of raw_value) ∧
  decoded_unit (energy_units_of raw_value) ∧
  decoded_unit (time_units_of raw_value).
Proof.
  repeat split; (eexists; split; [|reflexivity]).
  - pose proof (land_ones_range raw_value 4). change (Z.ones 4) with 15 in *. lia.
  - pose proof (land_ones_range (Z.shiftr raw_value 8) 5).
    change (Z.ones 5) with 31 in *. lia.
  - pose proof (land_ones_range (Z.shiftr raw_value 16) 4).
    change (Z.ones 4) with 15 in *. lia.
Qed.

(** X10.  Whatever the unit register holds, the three units the
    constructor decodes from it are powers of two [2^-k] with [k] the
    register field (bits 3:0, 12:8 and 19:16), and lie in (0, 1]. *)
Theorem units_in_unit_interval (raw_value : Z) :
  power_units_of raw_value = pow_half (Z.land raw_value 0xf) ∧
  energy_units_of raw_value = pow_half (Z.land (Z.shiftr raw_value 8) 0x1f) ∧
  time_units_of raw_value = pow_half (Z.land (Z.shiftr raw_value 16) 0xf) ∧
  Forall (λ u, decoded_unit u ∧
               PrimFloat.ltb 0 u = true ∧ PrimFloat.leb u 1 = true)
    [power_units_of raw_value; energy_units_of raw_value;
     time_units_of raw_value].
Proof.
  destruct (units_decoded raw_value) as (Hp & He & Ht).
  do 3 (split; [reflexivity|]).
  repeat (apply Forall_cons; split;
          [split; [done|by apply decoded_unit_bounds]|]).
  by apply Forall_nil.
Qed.

(** Fields [0b0011], [0b01110] and [0b1010]. *)
Example units_decode_example :
  let raw_value := 0xA0E03 in
  power_units_of raw_value = 0.125%float ∧
  energy_units_of raw_value = 0x1p-14%float ∧
  time_units_of raw_value = 0x1p-10%float.
Proof. repeat split; vm_compute; reflexivity. Qed.

(** ** Cumulative energy and average power *)

Lemma total_energy_loop_zero f r n :
  decoded_unit (energy_units r) →
  (∀ i, i ∈ upto (n_sockets r) →
     ∃ rt, running_total r !! i = Some rt ∧ f rt = 0) →
  total_energy_loop f r n = Done (0%float, n).
Proof.
  intros Hu. unfold total_energy_loop.
  induction (upto (n_sockets r)) as [|i idx IH]; intros Hall; [done|].
  destruct (Hall i) as (rt & Hrt & Hz); [left|].
  simpl. rewrite bind_assoc, (bind_Done _ _ _ _ _ (deref_Done _ _ _ _ Hrt)).
  unfold bind at 1, ret at 1. rewrite Hz, (decoded_unit_times_zero _ Hu).
  apply IH. intros j Hj. apply Hall. by right.
Qed.

Lemma total_energy_of_loop d r n :
  total_energy_of d r n = total_energy_loop (field d) r n.
Proof. by destruct d. Qed.

(** X11.  With a unit the constructor can decode, a domain whose
    running total is 0 on every socket reports a cumulative energy of
    exactly 0. *)
Theorem total_energy_zero d r n :
  decoded_unit (energy_units r) →
  (∀ i, 0 ≤ Z.of_nat i < n_sockets r →
     ∃ rt, running_total r !! i = Some rt ∧ field d rt = 0) →
  total_energy_of d r n = Done (0%float, n).
Proof.
  intros Hu Hall. rewrite total_energy_of_loop.
  apply total_energy_loop_zero; [done|].
  intros i Hi. apply Hall. unfold upto in Hi. apply elem_of_seq in Hi. lia.
Qed.

Lemma total_energy_zero_witness :
  total_energy_of DRAM later_state 4%nat = Done (0%float, 4%nat).
Proof.
  apply (total_energy_zero DRAM later_state 4%nat).
  - exists 14. split; [lia|]. vm_compute. reflexivity.
  - intros i Hi. assert (i = 0%nat) as ->.
    { change (n_sockets later_state) with 1 in Hi. lia. }
    eexists. split; vm_compute; reflexivity.
Defined.

(** X12.  After [reset()], with a unit the constructor can decode, the
    cumulative energy of the package, the core plane and DRAM is exactly
    0. *)
Theorem reset_total_energy_zero sys d r n r' n' :
  d ≠ PP1 →
  decoded_unit (energy_units r) →
  reset sys r n = Done (r', n') →
  total_energy_of d r' n' = Done (0%float, n').
Proof.
  intros Hd Hu H. unfold reset, upto in H.
  apply reset_loop_full in H as [(_ & Hn & _ & He & _) H].
  rewrite total_energy_of_loop.
  apply total_energy_loop_zero; [by rewrite He|].
  intros i Hi. unfold upto in Hi. apply elem_of_seq in Hi.
  destruct (H i) as (prv & cur & nxt & rt & t & _ & _ & _ & Hr
                     & Hz1 & Hz2 & Hz3 & _); [lia|].
  exists rt. split; [done|]. by destruct d.
Qed.

Lemma reset_total_energy_zero_witness :
  total_energy_of PKG reset_state 13%nat = Done (0%float, 13%nat).
Proof.
  apply (reset_total_energy_zero ticking_machine PKG rapl_unallocated 0%nat
           reset_state 13%nat).
  - discriminate.
  - exists 14. split; [lia|]. vm_compute. reflexivity.
  - vm_compute. reflexivity.
Defined.

Lemma average_power_of_unfold d r n :
  average_power_of d r n
  = average_power (total_energy_loop (field d)) r n.
Proof. by destruct d. Qed.

(** X13.  The average-power queries divide without the guard [power]
    has: when the running total of a domain is 0 on every socket and the
    start timestamp of socket 0 equals the timestamp of its current
    snapshot, the query returns 0/0, not a number. *)
Theorem average_power_zero_over_zero d r n rt0 cur0 :
  decoded_unit (energy_units r) →
  (∀ i, 0 ≤ Z.of_nat i < n_sockets r →
     ∃ rt, running_total r !! i = Some rt ∧ field d rt = 0) →
  running_total r !! 0%nat = Some rt0 →
  current_state r !! 0%nat = Some cur0 →
  tsc rt0 = tsc cur0 →
  average_power_of d r n = Done (nan, n).
Proof.
  intros Hu Hall Hrt Hcur Ht.
  rewrite average_power_of_unfold. unfold average_power.
  erewrite bind_Done.
  2: { apply total_energy_loop_zero; [done|].
       intros i Hi. apply Hall. unfold upto in Hi. apply elem_of_seq in Hi. lia. }
  unfold total_time.
  rewrite bind_assoc, (bind_Done _ _ _ _ _ (deref_Done _ _ _ _ Hrt)).
  rewrite bind_assoc, (bind_Done _ _ _ _ _ (deref_Done _ _ _ _ Hcur)).
  rewrite Ht, time_delta_same. reflexivity.
Qed.

Lemma average_power_zero_over_zero_witness :
  average_power_of PKG (rapl_primed {| pkg := 0; pp0 := 0; pp1 := 0; dram := 0;
                                      tsc := {| tv_sec := 0; tv_usec := 250 |} |})
    0%nat = Done (nan, 0%nat).
Proof.
  eapply average_power_zero_over_zero.
  - exists 14. split; [lia|]. vm_compute. reflexivity.
  - intros i Hi. assert (i = 0%nat) as -> by (simpl in Hi; lia).
    eexists. split; vm_compute; reflexivity.
  - vm_compute. reflexivity.
  - vm_compute. reflexivity.
  - reflexivity.
Defined.

(** ** Vendor detection *)

Lemma code_inj a b : code a = code b → a = b.
Proof.
  unfold code. intros H. apply N2Z.inj in H.
  rewrite <- (ascii_N_embedding a), <- (ascii_N_embedding b). by rewrite H.
Qed.

(** A buffer holding [s] and its terminator compares equal to a string
    without NULs of the same length exactly when [s] is that string. *)
Lemma strcmp_terminated s t :
  String.length s = String.length t →
  strchr t NUL = false →
  strcmp (s +:+ String NUL EmptyString) t = 0 ↔ s = t.
Proof.
  revert t. induction s as [|a s IH]; intros [|b t] Hlen Hnul; simpl in *;
    try discriminate.
  - done.
  - apply orb_false_iff in Hnul as [Hb Ht].
    change (code NUL) with 0 in Hb. apply Z.eqb_neq in Hb.
    destruct (Z.eqb_spec (code a) (code b)) as [Heq|Hne].
    + apply code_inj in Heq as ->.
      destruct (Z.eqb_spec (code b) 0) as [?|_]; [done|].
      rewrite IH by (done || lia). split; [by intros ->|by intros [= ->]].
    + split; [lia|]. intros [= -> _]. done.
Qed.

Lemma code_range a : 0 ≤ code a < 256.
Proof.
  unfold code. pose proof (N_ascii_bounded a). lia.
Qed.

Lemma chr_code_add a k : chr (code a + 256 * k) = a.
Proof.
  unfold chr. pose proof (code_range a).
  rewrite (Z.mul_comm 256 k), Z.mod_add by lia.
  rewrite Z.mod_small by lia. unfold code.
  by rewrite N2Z.id, ascii_N_embedding.
Qed.

Lemma code_chr z : code (chr z) = z mod 256.
Proof.
  unfold code, chr. pose proof (Z.mod_pos_bound z 256).
  rewrite N_ascii_embedding by lia. lia.
Qed.

Lemma div_256_add a k : 0 ≤ a < 256 → (a + 256 * k) / 256 = k.
Proof.
  intros Ha. rewrite (Z.mul_comm 256 k), Z.div_add by lia.
  rewrite Z.div_small by lia. lia.
Qed.

(** The four bytes of the word four characters form are these
    characters. *)
Lemma le_bytes32_le_word a b c d rest :
  le_bytes32 (le_word (String a (String b (String c (String d rest)))))
  = String a (String b (String c (String d EmptyString))).
Proof.
  pose proof (code_range a). pose proof (code_range b).
  pose proof (code_range c). pose proof (code_range d).
  unfold le_bytes32, le_word.
  replace (code a + 2 ^ 8 * code b + 2 ^ 16 * code c + 2 ^ 24 * code d)
    with (code a + 256 * (code b + 256 * (code c + 256 * code d))) by lia.
  change (2 ^ 8) with 256.
  change (2 ^ 16) with (256 * 256). change (2 ^ 24) with (256 * 256 * 256).
  rewrite <- !Z.div_div by lia.
  rewrite !div_256_add by lia.
  rewrite !chr_code_add.
  replace (code d) with (code d + 256 * 0) by lia. by rewrite chr_code_add.
Qed.

(** The word the four bytes of a 32-bit value form is this value. *)
Lemma le_word_le_bytes32 x rest :
  is_uint32 x → le_word (le_bytes32 x +:+ rest) = x.
Proof.
  unfold is_uint32. intros Hx. unfold le_bytes32. simpl. rewrite !code_chr.
  change (2 ^ 8) with 256.
  change (2 ^ 16) with (256 * 256). change (2 ^ 24) with (256 * 256 * 256).
  rewrite <- !Z.div_div by lia.
  pose proof (Z.div_mod x 256). pose proof (Z.div_mod (x / 256) 256).
  pose proof (Z.div_mod (x / 256 / 256) 256).
  assert (0 ≤ x / 256 / 256 / 256 < 256) as Hq.
  { rewrite !Z.div_div by lia. split; [apply Z.div_pos; lia|].
    apply Z.div_lt_upper_bound; lia. }
  rewrite (Z.mod_small (x / 256 / 256 / 256)) by lia. lia.
Qed.

(** The identification string of 32-bit registers spells back to
    them. *)
Lemma registers_spell_vendor_id u :
  uint32_registers u → registers_spell u (vendor_id u).
Proof.
  intros (Hb & Hd & Hc). unfold registers_spell, vendor_id.
  split; [by rewrite le_word_le_bytes32|]. split.
  - change (String.substring 4 4
              (le_bytes32 (ebx u) +:+ le_bytes32 (edx u) +:+ le_bytes32 (ecx u)))
      with (le_bytes32 (edx u) +:+ EmptyString).
    by rewrite le_word_le_bytes32.
  - change (String.substring 8 4
              (le_bytes32 (ebx u) +:+ le_bytes32 (edx u) +:+ le_bytes32 (ecx u)))
      with (le_bytes32 (ecx u) +:+ EmptyString).
    by rewrite le_word_le_bytes32.
Qed.

(** Registers that spell a string of twelve characters yield it. *)
Lemma vendor_id_spelled u s :
  String.length s = 12%nat → registers_spell u s → vendor_id u = s.
Proof.
  intros Hlen (Hb & Hd & Hc). unfold vendor_id. rewrite Hb, Hd, Hc.
  do 12 (destruct s as [|? s]; [done|]). destruct s; [|done].
  change (String.substring 4 4 ?t) with
    (String a3 (String a4 (String a5 (String a6 EmptyString)))).
  change (String.substring 8 4 ?t) with
    (String a7 (String a8 (String a9 (String a10 EmptyString)))).
  by rewrite !le_bytes32_le_word.
Qed.

Lemma get_vendor_strcmp sys :
  get_vendor sys = 1 ↔ vendor_id (sys_cpuid sys 0) = "AuthenticAMD".
Proof.
  pose proof (strcmp_terminated (vendor_id (sys_cpuid sys 0)) "AuthenticAMD"
                eq_refl eq_refl) as Hcmp.
  unfold get_vendor.
  destruct (Z.eqb_spec
              (strcmp (vendor_id (sys_cpuid sys 0) +:+ String NUL EmptyString)
                      "AuthenticAMD") 0) as [H0|H0].
  - split; [intros _; by apply Hcmp | done].
  - split; [done|]. intros Hv. destruct H0. by apply Hcmp.
Qed.

Lemma cpu_with_vendor_spells s :
  registers_spell (sys_cpuid (cpu_with_vendor s) 0) s.
Proof. done. Qed.

(** C8.  The vendor identification string is the 12 characters the
    registers [ebx], [edx], [ecx] hold, in this order and each from its
    least significant byte: 32-bit registers yield the string [s]
    exactly when they spell [s], and every string of 12 characters is
    the identification string of some processor.  [get_vendor] returns 1
    (AMD) exactly when the string equals "AuthenticAMD", that is when
    [ebx], [edx], [ecx] are 0x68747541, 0x69746E65, 0x444D4163, and 0
    (INTEL) for every other value; it always returns one of the two. *)
Theorem get_vendor_amd_iff (sys : System) (s : string) :
  let u := sys_cpuid sys 0 in
  String.length (vendor_id u) = 12%nat ∧
  (get_vendor sys = 1 ↔ vendor_id u = "AuthenticAMD") ∧
  (vendor_id u ≠ "AuthenticAMD" → get_vendor sys = 0) ∧
  (get_vendor sys = 0 ∨ get_vendor sys = 1) ∧
  (uint32_registers u →
     (get_vendor sys = 1 ↔
        ebx u = 0x68747541 ∧ edx u = 0x69746E65 ∧ ecx u = 0x444D4163)) ∧
  (uint32_registers u → String.length s = 12%nat →
     (vendor_id u = s ↔ registers_spell u s)) ∧
  (String.length s = 12%nat →
     vendor_id (sys_cpuid (cpu_with_vendor s) 0) = s ∧
     (get_vendor (cpu_with_vendor s) = 1 ↔ s = "AuthenticAMD") ∧
     (s ≠ "AuthenticAMD" → get_vendor (cpu_with_vendor s) = 0)).
Proof.
  intros u.
  assert (∀ sys', get_vendor sys' = 0 ∨ get_vendor sys' = 1) as H01.
  { intros sys'. unfold get_vendor. case_match; auto. }
  assert (∀ sys', vendor_id (sys_cpuid sys' 0) ≠ "AuthenticAMD" →
                  get_vendor sys' = 0) as Hother.
  { intros sys' Hne. destruct (H01 sys') as [H|H]; [done|].
    by apply get_vendor_strcmp in H. }
  assert (∀ t, String.length t = 12%nat → uint32_registers u →
               (vendor_id u = t ↔ registers_spell u t)) as Hspell.
  { intros t Hlen Hu. split.
    - intros <-. by apply registers_spell_vendor_id.
    - by apply vendor_id_spelled. }
  split; [done|]. split; [apply get_vendor_strcmp|].
  split; [apply Hother|]. split; [apply H01|]. split; [|split].
  - intros Hu. rewrite get_vendor_strcmp. fold u.
    apply (Hspell "AuthenticAMD" eq_refl Hu).
  - intros Hu Hlen. by apply Hspell.
  - intros Hlen.
    pose proof (vendor_id_spelled _ s Hlen (cpu_with_vendor_spells s)) as Hid.
    split; [done|]. split.
    + by rewrite get_vendor_strcmp, Hid.
    + intros Hne. apply Hother. by rewrite Hid.
Qed.

Lemma get_vendor_amd_iff_witness :
  get_vendor (cpu_with_vendor "AuthenticAMD") = 1 ∧
  get_vendor (cpu_with_vendor "GenuineIntel") = 0.
Proof.
  split.
  - destruct (get_vendor_amd_iff (cpu_with_vendor "AuthenticAMD") "AuthenticAMD")
      as (_ & _ & _ & _ & Hregs & _ & _).
    apply Hregs.
    + unfold uint32_registers, is_uint32. repeat split; by vm_compute.
    + repeat split; by vm_compute.
  - destruct (get_vendor_amd_iff (cpu_with_vendor "GenuineIntel") "GenuineIntel")
      as (_ & _ & _ & _ & _ & _ & Hany).
    apply Hany; [reflexivity|discriminate].
Defined.

(** The exact string, Intel's, and truncated, padded or re-cased
    variants. *)
Example get_vendor_examples :
  get_vendor (cpu_with_vendor "AuthenticAMD") = 1 ∧
  get_vendor (cpu_with_vendor "GenuineIntel") = 0 ∧
  get_vendor (cpu_with_vendor ("GenuineInte" +:+ String NUL EmptyString)) = 0 ∧
  get_vendor (cpu_with_vendor " GenuineInte") = 0 ∧
  get_vendor (cpu_with_vendor ("AuthenticAM" +:+ String NUL EmptyString)) = 0 ∧
  get_vendor (cpu_with_vendor " AuthenticAM") = 0 ∧
  get_vendor (cpu_with_vendor "authenticamd") = 0.
Proof. repeat split; vm_compute; reflexivity. Qed.


(** ** Register access *)

(** C9.  When [open] fails, [open_msr] ends the process with code 2 if
    [errno] is [ENXIO] (no such CPU), 3 if it is [EIO] (no MSR support)
    and 127 otherwise; a [pread] that does not return 8 bytes ends it
    with code 127. *)
Theorem register_access_exit_codes sys socket cpuCore r n msr_offset f :
  let res := sys_open sys (msr_path cpuCore) in
  (open_fd res < 0 → open_errno res = ENXIO →
     open_msr sys socket cpuCore r n = Exit 2) ∧
  (open_fd res < 0 → open_errno res = EIO →
     open_msr sys socket cpuCore r n = Exit 3) ∧
  (open_fd res < 0 → open_errno res ≠ ENXIO → open_errno res ≠ EIO →
     open_msr sys socket cpuCore r n = Exit 127) ∧
  (fd r !! socket = Some f →
   pread_ret (sys_pread sys n f msr_offset) ≠ 8 →
     read_msr sys r socket msr_offset n = Exit 127).
Proof.
  intros res. unfold open_msr. fold res.
  split; [|split; [|split]].
  - intros Hfd Herr. apply Z.ltb_lt in Hfd. rewrite Hfd, Herr. reflexivity.
  - intros Hfd Herr. apply Z.ltb_lt in Hfd. rewrite Hfd, Herr. reflexivity.
  - intros Hfd H1 H2. apply Z.ltb_lt in Hfd. rewrite Hfd.
    apply Z.eqb_neq in H1, H2. rewrite H1, H2. reflexivity.
  - intros Hf Hret. unfold read_msr, bind, deref. rewrite Hf. simpl.
    apply Z.eqb_neq in Hret. by rewrite Hret.
Qed.

(** A device that cannot be opened, with [ENXIO], [EIO] and [EACCES];
    and a read that returns 4 bytes. *)
Lemma register_access_exit_codes_witness :
  open_msr (broken_machine ENXIO 0) 0%nat 5 rapl_unallocated 0%nat = Exit 2 ∧
  open_msr (broken_machine EIO 0) 0%nat 5 rapl_unallocated 0%nat = Exit 3 ∧
  open_msr (broken_machine 13 0) 0%nat 5 rapl_unallocated 0%nat = Exit 127 ∧
  read_msr (broken_machine 0 4) rapl_unallocated 0%nat MSR_PKG_ENERGY_STATUS 0%nat
    = Exit 127.
Proof.
  split; [|split; [|split]].
  - apply (register_access_exit_codes (broken_machine ENXIO 0) 0%nat 5
             rapl_unallocated 0%nat 0 0); [simpl; lia | reflexivity].
  - apply (register_access_exit_codes (broken_machine EIO 0) 0%nat 5
             rapl_unallocated 0%nat 0 0); [simpl; lia | reflexivity].
  - apply (register_access_exit_codes (broken_machine 13 0) 0%nat 5
             rapl_unallocated 0%nat 0 0); simpl; unfold ENXIO, EIO; lia.
  - apply (register_access_exit_codes (broken_machine 0 4) 0%nat 5
             rapl_unallocated 0%nat MSR_PKG_ENERGY_STATUS 3);
      [reflexivity | simpl; lia].
Defined.

(** X14.  When [open] returns a descriptor, [open_msr(socket, core)]
    returns, having stored it for the socket and changed nothing else;
    a later [read_msr] on the socket is a read of 8 bytes on that
    descriptor, fatal with code 127 unless all 8 arrive. *)
Theorem open_msr_then_read sys socket cpuCore r n :
  let res := sys_open sys (msr_path cpuCore) in
  0 ≤ open_fd res →
  ∃ r',
    open_msr sys socket cpuCore r n = Done (r', n) ∧
    fd r' !! socket = Some (open_fd res) ∧
    (∀ j, j ≠ socket → fd r' !! j = fd r !! j) ∧
    r' = with_fd r (fd r') ∧
    ∀ off k,
      read_msr sys r' socket off k
      = let got := sys_pread sys k (open_fd res) off in
        if pread_ret got =? 8
        then Done (wrap64 (pread_data got), S k)
        else Exit 127.
Proof.
  intros res Hfd. unfold open_msr. fold res.
  destruct (Z.ltb_spec (open_fd res) 0) as [?|_]; [lia|].
  eexists. split; [reflexivity|]. simpl.
  split; [by rewrite lookup_insert_eq|].
  split; [intros j Hj; by rewrite lookup_insert_ne|].
  split; [reflexivity|].
  intros off k. unfold read_msr, bind, deref. simpl.
  by rewrite lookup_insert_eq.
Qed.

(** Socket 1 opened through core 2 on a machine whose device opens as
    descriptor 3. *)
Lemma open_msr_then_read_witness :
  ∃ r',
    open_msr ticking_machine 1%nat 2 rapl_unallocated 0%nat = Done (r', 0%nat) ∧
    fd r' !! 1%nat = Some 3 ∧
    read_msr ticking_machine r' 1%nat MSR_PKG_ENERGY_STATUS 7%nat
      = Done (700, 8%nat).
Proof.
  destruct (open_msr_then_read ticking_machine 1%nat 2 rapl_unallocated 0%nat)
    as (r' & Hrun & Hfd & _ & _ & Hread).
  - simpl. lia.
  - exists r'. split; [exact Hrun|]. split; [exact Hfd|].
    rewrite Hread. reflexivity.
Defined.

(** ** Socket discovery *)

Section TopologyFacts.
Variables MAX_LINE MAX_CPU MAX_SOCKETS : Z.
Variable sys : System.

Local Abbreviation probe := (probe_cpu MAX_LINE MAX_SOCKETS sys).
Local Abbreviation unreadable c :=
  (package_id_unreadable (sys_file sys (package_path c))).

(** An entry within bounds either ends the process with code 1, when
    its source cannot be read, or goes through, leaving the lengths of
    the member arrays alone and making no time-dependent call. *)
Lemma probe_cpu_in_bounds cpu i c st n :
  cpu !! i = Some c →
  probe_in_bounds MAX_LINE MAX_SOCKETS sys c →
  length st.1 = Z.to_nat MAX_SOCKETS →
  (unreadable c ∧ probe cpu i st n = Exit EXIT_FAILURE) ∨
  (¬ unreadable c ∧
   ∃ st', probe cpu i st n = Done (st', n) ∧
          length st'.1 = Z.to_nat MAX_SOCKETS).
Proof.
  intros Hc [Hfit Hb] Hlen. unfold probe_cpu. rewrite Hc.
  destruct (Z.leb_spec MAX_LINE (Z.of_nat (String.length (package_path c))))
    as [?|_]; [lia|].
  destruct (sys_file sys (package_path c)) as [| |s]; [by left..|].
  simpl. destruct (scan_int s) as [[id rest]|]; [|by left].
  right. split; [done|]. destruct Hb as [-> Hid].
  destruct (Z.leb_spec 0 id) as [_|?]; [|lia].
  destruct (Z.ltb_spec id MAX_SOCKETS) as [_|?]; [|lia].
  simpl.
  destruct (lookup_lt_is_Some_2 st.1 (Z.to_nat id)) as [s_id Hs]; [lia|].
  rewrite Hs. destruct (s_id =? -1).
  - eexists. split; [reflexivity|]. simpl. by rewrite length_insert.
  - by exists st.
Qed.

Lemma probe_loop_unreadable cpu idx st n :
  (∀ i, i ∈ idx →
     ∃ c, cpu !! i = Some c ∧ probe_in_bounds MAX_LINE MAX_SOCKETS sys c) →
  (∃ i c, i ∈ idx ∧ cpu !! i = Some c ∧ unreadable c) →
  length st.1 = Z.to_nat MAX_SOCKETS →
  for_loop idx (probe cpu) st n = Exit EXIT_FAILURE.
Proof.
  revert st. induction idx as [|i idx IH]; intros st Hall (k & ck & Hk & Hck & Hbad) Hlen.
  - by apply elem_of_nil in Hk.
  - destruct (Hall i) as (c & Hc & Hin); [left|].
    simpl. destruct (probe_cpu_in_bounds cpu i c st n Hc Hin Hlen)
      as [[_ Hexit]|[Hok (st' & Hrun & Hlen')]].
    + by apply bind_Exit.
    + rewrite (bind_Done _ _ _ _ _ Hrun). apply IH; [|..|done].
      * intros j Hj. apply Hall. by right.
      * apply elem_of_cons in Hk as [->|Hk]; [|by exists k, ck].
        simplify_eq. done.
Qed.

Lemma read_online_unreadable n :
  online_unreadable MAX_LINE (sys_file sys online_path) →
  read_online MAX_LINE MAX_CPU sys n = Exit EXIT_FAILURE.
Proof.
  unfold read_online. intros [->| Hnone]; [done|].
  destruct (sys_file sys online_path) as [| |s]; [done..|].
  by rewrite Hnone.
Qed.

Lemma get_n_sockets_package_unreadable cpu n n1 :
  read_online MAX_LINE MAX_CPU sys n = Done (cpu, n1) →
  Forall (probe_in_bounds MAX_LINE MAX_SOCKETS sys) cpu →
  Exists (λ c, unreadable c) cpu →
  get_n_sockets MAX_LINE MAX_CPU MAX_SOCKETS sys n = Exit EXIT_FAILURE.
Proof.
  intros Hon Hall Hex. unfold get_n_sockets.
  rewrite (bind_Done _ _ _ _ _ Hon).
  apply bind_Exit, probe_loop_unreadable.
  - intros i Hi. apply elem_of_seq in Hi.
    destruct (lookup_lt_is_Some_2 cpu i) as [c Hc]; [lia|].
    exists c. split; [done|].
    by apply (proj1 (Forall_lookup _ _) Hall i).
  - apply Exists_exists in Hex as (c & Hc & Hbad).
    apply list_elem_of_lookup in Hc as [i Hi].
    exists i, c. split; [|done].
    apply elem_of_seq. pose proof (lookup_lt_Some _ _ _ Hi). lia.
  - simpl. by rewrite length_replicate.
Qed.

(** *** What is recorded as a socket's first core *)

(** Entry [i] of the loop changes a slot of [first_lcoreid] only to [i]. *)
Lemma probe_cpu_records_position cpu i st n st' n' p :
  probe cpu i st n = Done (st', n') →
  st'.2 !! p = st.2 !! p ∨ st'.2 !! p = Some (Z.of_nat i).
Proof.
  unfold probe_cpu, exit, undefined, ret. intros H.
  repeat case_match; simplify_eq; auto. simpl.
  match goal with |- context [<[?k:=_]> _ !! _] => set (q := k) end.
  destruct (decide (p = q)) as [->|Hne];
    [|left; apply list_lookup_insert_ne; congruence].
  destruct (st.2 !! q) eqn:E.
  - right. apply list_lookup_insert_eq. by apply lookup_lt_Some in E.
  - left. rewrite list_insert_ge; [done|]. by apply lookup_ge_None.
Qed.

Lemma probe_loop_records_positions cpu idx st n st' n' p :
  for_loop idx (probe cpu) st n = Done (st', n') →
  st'.2 !! p = st.2 !! p ∨ ∃ i, i ∈ idx ∧ st'.2 !! p = Some (Z.of_nat i).
Proof.
  revert st n. induction idx as [|i idx IH]; intros st n H; simpl in H.
  - unfold ret in H. simplify_eq. by left.
  - apply bind_inv in H as (st1 & n1 & H1 & H).
    apply IH in H as [Heq|(j & Hj & Hp)].
    + rewrite Heq.
      destruct (probe_cpu_records_position _ _ _ _ _ _ p H1) as [->|Hi];
        [by left|].
      right. exists i. split; [left|done].
    + right. exists j. split; [by right|done].
Qed.

(** Whatever the ids of the online CPUs, each slot of [first_lcoreid]
    ends up holding -1 or a position in the list of online CPUs. *)
Lemma get_n_sockets_records_positions n t n' p v :
  get_n_sockets MAX_LINE MAX_CPU MAX_SOCKETS sys n = Done (t, n') →
  first_lcoreid t !! p = Some v →
  ∃ cpu n1,
    read_online MAX_LINE MAX_CPU sys n = Done (cpu, n1) ∧
    (v = -1 ∨ ∃ i, (i < length cpu)%nat ∧ v = Z.of_nat i).
Proof.
  unfold get_n_sockets. intros H Hv.
  apply bind_inv in H as (cpu & n1 & Hon & H).
  apply bind_inv in H as (st & n2 & Hloop & H).
  unfold ret in H. simplify_eq. simpl in Hv.
  exists cpu, n1. split; [done|].
  destruct (probe_loop_records_positions _ _ _ _ _ _ p Hloop)
    as [Heq|(i & Hi & Hp)].
  - left. rewrite Heq in Hv. simpl in Hv.
    apply lookup_replicate in Hv as [-> _]. done.
  - right. exists i. apply elem_of_seq in Hi.
    split; [lia|]. rewrite Hp in Hv. by simplify_eq.
Qed.
End TopologyFacts.

(** C10.  [get_n_sockets] ends the process with code 1 when the list of
    online CPUs cannot be opened or read, and when the package id of
    some online CPU cannot be opened or read (every entry of the loop
    staying within the buffers); the register functions end it with 2,
    3 or 127 only. *)
Theorem topology_failure_exits_1 MAX_LINE MAX_CPU MAX_SOCKETS sys n :
  (online_unreadable MAX_LINE (sys_file sys online_path) →
     get_n_sockets MAX_LINE MAX_CPU MAX_SOCKETS sys n = Exit 1) ∧
  (∀ cpu n1,
     read_online MAX_LINE MAX_CPU sys n = Done (cpu, n1) →
     Forall (probe_in_bounds MAX_LINE MAX_SOCKETS sys) cpu →
     Exists (λ c, package_id_unreadable (sys_file sys (package_path c))) cpu →
     get_n_sockets MAX_LINE MAX_CPU MAX_SOCKETS sys n = Exit 1) ∧
  (∀ socket cpuCore r code,
     open_msr sys socket cpuCore r n = Exit code →
     code = 2 ∨ code = 3 ∨ code = 127) ∧
  (∀ socket r msr_offset code,
     read_msr sys r socket msr_offset n = Exit code → code = 127).
Proof.
  split; [|split; [|split]].
  - intros H. unfold get_n_sockets. apply bind_Exit.
    by apply read_online_unreadable.
  - intros cpu n1. apply get_n_sockets_package_unreadable.
  - intros socket cpuCore r code. unfold open_msr, exit, ret.
    repeat case_match; intros [= <-]; auto.
  - intros socket r off code. unfold read_msr, bind, deref, ret, undefined.
    repeat case_match; try discriminate; simplify_eq; by intros [= <-].
Qed.

(** No list of online CPUs; and CPUs 0 and 1 online with no topology
    entry for CPU 1. *)
Lemma topology_failure_exits_1_witness :
  get_n_sockets 1024 1024 8 (machine [] ticking_msr) 0%nat = Exit 1 ∧
  get_n_sockets 1024 1024 8 (machine missing_package_files ticking_msr) 0%nat
    = Exit 1.
Proof.
  split.
  - apply (topology_failure_exits_1 1024 1024 8 (machine [] ticking_msr) 0%nat).
    by left.
  - destruct (topology_failure_exits_1 1024 1024 8
                (machine missing_package_files ticking_msr) 0%nat)
      as (_ & Hpkg & _).
    apply (Hpkg [0; 1] 0%nat).
    + vm_compute. reflexivity.
    + repeat constructor; vm_compute; (reflexivity || discriminate || exact I).
    + right. left. exact I.
Defined.

(** C5.  CPUs 2 and 3 are online and belong to package 0.  Discovery
    finds one socket and records 0 for it, the position of CPU 2 in the
    list of online CPUs, where the first online CPU of the package is
    CPU 2. *)
Theorem first_lcoreid_is_a_position :
  let sys := machine offline_first_files ticking_msr in
  read_online 1024 1024 sys 0%nat = Done ([2; 3], 0%nat) ∧
  get_n_sockets 1024 1024 8 sys 0%nat
    = Done ({| count := 1;
               sockets := [1; -1; -1; -1; -1; -1; -1; -1];
               first_lcoreid := [0; -1; -1; -1; -1; -1; -1; -1] |}, 0%nat).
Proof. split; vm_compute; reflexivity. Qed.

(** With CPUs 0-3 online in two packages position and id agree. *)
Example get_n_sockets_two_sockets :
  get_n_sockets 1024 1024 8 (machine two_socket_files ticking_msr) 0%nat
    = Done ({| count := 2;
               sockets := [1; 1; -1; -1; -1; -1; -1; -1];
               first_lcoreid := [0; 2; -1; -1; -1; -1; -1; -1] |}, 0%nat).
Proof. vm_compute. reflexivity. Qed.

(** *** Tokens of the list of online CPUs *)




Example strtok_all_commas :
  strtok_all ",0,,2-3," ","%char = ["0"; "2-3"].
Proof. reflexivity. Qed.

(** *** Range tokens *)

Lemma skip_space_suffix s : ∃ pre, s = pre +:+ skip_space s.
Proof.
  induction s as [|c s [pre IH]]; simpl; [by exists EmptyString|].
  destruct (isspace c); [|by exists EmptyString].
  exists (String c pre).
  change (String c s = String c (pre +:+ skip_space s)). by f_equal.
Qed.

Lemma scan_digits_suffix s acc v rest :
  scan_digits s acc = (v, rest) → ∃ pre, s = pre +:+ rest.
Proof.
  revert acc. induction s as [|c s IH]; intros acc H; simpl in H.
  - simplify_eq. by exists EmptyString.
  - destruct (isdigit c).
    + apply IH in H as [pre ->]. by exists (String c pre).
    + simplify_eq. by exists EmptyString.
Qed.

Lemma string_app_assoc (a b c : string) : (a +:+ b) +:+ c = a +:+ (b +:+ c).
Proof.
  induction a as [|x a IH]; [done|].
  change (String x ((a +:+ b) +:+ c) = String x (a +:+ (b +:+ c))).
  by rewrite IH.
Qed.

Lemma scan_number_suffix (neg : bool) s1 v rest :
  match s1 with
  | String c _ =>
      if isdigit c
      then let '(v0, rest0) := scan_digits s1 0 in
           Some (if neg then - v0 else v0, rest0)
      else None
  | EmptyString => None
  end = Some (v, rest) →
  ∃ pre, s1 = pre +:+ rest.
Proof.
  destruct s1 as [|c1 s1']; [done|]. destruct (isdigit c1); [|done].
  destruct (scan_digits (String c1 s1') 0) as [v0 rest0] eqn:Hd.
  intros [= _ <-]. by apply scan_digits_suffix in Hd.
Qed.

(** [%d] leaves a suffix of its input unread. *)
Lemma scan_int_suffix s v rest :
  scan_int s = Some (v, rest) → ∃ pre, s = pre +:+ rest.
Proof.
  unfold scan_int. destruct (skip_space_suffix s) as [sp Hsp].
  destruct (skip_space s) as [|c s0]; [done|].
  destruct (code c =? 45); [|destruct (code c =? 43)]; intros H.
  - apply (scan_number_suffix true) in H as [pre ->].
    exists (sp +:+ String c pre). by rewrite Hsp, string_app_assoc.
  - apply (scan_number_suffix false) in H as [pre ->].
    exists (sp +:+ String c pre). by rewrite Hsp, string_app_assoc.
  - apply (scan_number_suffix false (String c s0)) in H as [pre Hpre].
    exists (sp +:+ pre). by rewrite Hsp, Hpre, string_app_assoc.
Qed.

Lemma strchr_app_here pre c rest : strchr (pre +:+ String c rest) c = true.
Proof.
  induction pre as [|a pre IH]; simpl.
  - by rewrite Z.eqb_refl.
  - by rewrite IH, orb_true_r.
Qed.

Section RangeTokens.
Variable MAX_CPU : Z.

Lemma push_loop_app (xs : list Z) cpu n :
  Z.of_nat (length cpu) + Z.of_nat (length xs) ≤ MAX_CPU →
  for_loop xs (push_cpu MAX_CPU) cpu n = Done (cpu ++ xs, n).
Proof.
  revert cpu. induction xs as [|x xs IH]; intros cpu Hlen; simpl.
  - by rewrite app_nil_r.
  - unfold bind, push_cpu. simpl in Hlen.
    destruct (Z.ltb_spec (Z.of_nat (length cpu)) MAX_CPU) as [_|?]; [|lia].
    simpl. rewrite IH; [by rewrite <- app_assoc|].
    rewrite length_app. simpl. lia.
Qed.

Lemma push_range_seqZ a b cpu n :
  b ≠ INT_MAX →
  Z.of_nat (length cpu) + Z.max 0 (b - a + 1) ≤ MAX_CPU →
  push_range MAX_CPU a b cpu n = Done (cpu ++ seqZ a (b - a + 1), n).
Proof.
  intros Hb Hlen. unfold push_range.
  destruct (Z.eqb_spec b INT_MAX) as [?|_]; [done|].
  assert (map (λ k : nat, a + Z.of_nat k) (upto (b - a + 1))
          = seqZ a (b - a + 1)) as ->.
  { unfold seqZ, upto. apply map_ext. intros k. lia. }
  apply push_loop_app. rewrite length_seqZ. lia.
Qed.

End RangeTokens.

(** X16.  A token in which [%d-%d] reads [a] and [b] adds the CPUs
    [a, a+1, ..., b] in this order after those already listed, when they
    fit the array; a range with [b < a] adds nothing and is no error. *)
Theorem parse_token_range MAX_CPU token a b rest rest' cpu n :
  scan_int token = Some (a, String "-" rest) →
  scan_int rest = Some (b, rest') →
  in_int a = true → in_int b = true → b ≠ INT_MAX →
  Z.of_nat (length cpu) + Z.max 0 (b - a + 1) ≤ MAX_CPU →
  parse_token MAX_CPU token cpu n = Done (cpu ++ seqZ a (b - a + 1), n).
Proof.
  intros Ha Hb Hia Hib Hmax Hlen. unfold parse_token.
  destruct (scan_int_suffix _ _ _ Ha) as [pre ->].
  rewrite strchr_app_here.
  unfold sscanf_range. rewrite Ha. change (code "-" =? 45) with true. cbv iota.
  rewrite Hb, Hia, Hib. simpl. unfold bind, ret. simpl.
  by apply push_range_seqZ.
Qed.

Lemma parse_token_range_witness :
  parse_token 1024 ("2-3" +:+ LF) [0] 0%nat = Done ([0; 2; 3], 0%nat) ∧
  parse_token 1024 "3-2" [0] 0%nat = Done ([0], 0%nat).
Proof.
  split.
  - apply (parse_token_range 1024 ("2-3" +:+ LF) 2 3 ("3" +:+ LF) LF [0] 0%nat);
      (reflexivity || discriminate || (simpl; lia)).
  - apply (parse_token_range 1024 "3-2" 3 2 "2" EmptyString [0] 0%nat);
      (reflexivity || discriminate || (simpl; lia)).
Defined.

(** *** The array of online CPUs *)

Section OnlineBounds.
Variables MAX_LINE MAX_CPU : Z.
Variable sys : System.

Local Abbreviation within_cpu_array := (within_cpu_array MAX_CPU).

Lemma push_cpu_inv i cpu n cpu' n' :
  push_cpu MAX_CPU i cpu n = Done (cpu', n') →
  n' = n ∧ cpu' = cpu ++ [i] ∧ Z.of_nat (length cpu') ≤ MAX_CPU.
Proof.
  unfold push_cpu, ret, undefined.
  destruct (Z.ltb_spec (Z.of_nat (length cpu)) MAX_CPU); [|done].
  intros [= <- <-]. rewrite length_app. simpl. repeat split. lia.
Qed.

Lemma push_loop_inv xs cpu n cpu' n' :
  for_loop xs (push_cpu MAX_CPU) cpu n = Done (cpu', n') →
  n' = n ∧ cpu' = cpu ++ xs ∧
  (xs = [] ∨ Z.of_nat (length cpu') ≤ MAX_CPU).
Proof.
  revert cpu n. induction xs as [|x xs IH]; intros cpu n H; simpl in H.
  - unfold ret in H. simplify_eq. rewrite app_nil_r. auto.
  - apply bind_inv in H as (cpu1 & n1 & H1 & H).
    apply push_cpu_inv in H1 as (-> & -> & Hlen).
    apply IH in H as (-> & -> & Hxs). rewrite <- app_assoc.
    split; [done|]. split; [done|]. right.
    destruct Hxs as [->|Hx]; [by rewrite app_nil_r in *|].
    by rewrite <- app_assoc in Hx.
Qed.

Lemma push_loop_overflow xs cpu n :
  Z.of_nat (length cpu) ≤ MAX_CPU →
  MAX_CPU < Z.of_nat (length cpu) + Z.of_nat (length xs) →
  for_loop xs (push_cpu MAX_CPU) cpu n = Undefined.
Proof.
  revert cpu. induction xs as [|x xs IH]; intros cpu Hfit Hlen; simpl in *.
  - lia.
  - unfold bind, push_cpu.
    destruct (Z.ltb_spec (Z.of_nat (length cpu)) MAX_CPU) as [Hlt|_]; [|done].
    simpl. apply IH; rewrite length_app; simpl; lia.
Qed.

Lemma parse_token_inv token cpu n cpu' n' :
  parse_token MAX_CPU token cpu n = Done (cpu', n') →
  within_cpu_array cpu → n' = n ∧ within_cpu_array cpu'.
Proof.
  unfold parse_token. intros H [Hint Hlen].
  destruct (strchr token "-").
  - apply bind_inv in H as ([a b] & n1 & Hs & H). simpl in H.
    unfold sscanf_range, ret, undefined in Hs.
    repeat case_match; simplify_eq.
    match goal with Hi : in_int _ && in_int _ = true |- _ =>
      apply andb_true_iff in Hi as [Ha Hb] end.
    unfold push_range in H. case_match; [done|].
    apply push_loop_inv in H as (-> & -> & Hxs).
    split; [done|]. split.
    + apply Forall_app. split; [done|].
      apply Forall_forall. intros x Hx.
      apply list_elem_of_fmap in Hx as (k & -> & Hk).
      unfold upto in Hk. apply elem_of_seq in Hk.
      unfold in_int, INT_MIN, INT_MAX in *. lia.
    + destruct Hxs as [Hnil|?]; [|by right].
      rewrite Hnil, app_nil_r. done.
  - apply bind_inv in H as (v & n1 & Hv & H).
    unfold atoi, ret, undefined in Hv.
    apply push_cpu_inv in H as (-> & -> & Hl).
    assert (n1 = n ∧ in_int v = true) as [-> Hiv].
    { repeat case_match; by simplify_eq. }
    split; [done|]. split; [|by right].
    apply Forall_app. split; [done|]. by repeat constructor.
Qed.

Lemma parse_loop_inv tokens cpu n cpu' n' :
  for_loop tokens (parse_token MAX_CPU) cpu n = Done (cpu', n') →
  within_cpu_array cpu → n' = n ∧ within_cpu_array cpu'.
Proof.
  revert cpu n. induction tokens as [|t tokens IH]; intros cpu n H Hin; simpl in H.
  - unfold ret in H. by simplify_eq.
  - apply bind_inv in H as (cpu1 & n1 & H1 & H).
    apply parse_token_inv in H1 as [-> Hin1]; [|done]. by apply IH in H.
Qed.

Lemma read_online_inv n cpu n' :
  read_online MAX_LINE MAX_CPU sys n = Done (cpu, n') →
  n' = n ∧ within_cpu_array cpu.
Proof.
  unfold read_online. intros H.
  assert (within_cpu_array []) as H0 by (split; [constructor|by left]).
  destruct (sys_file sys online_path); try done;
    destruct (fgets MAX_LINE _); try done;
    by apply parse_loop_inv in H.
Qed.

End OnlineBounds.

(** X17.  The array of online CPUs is filled without a bound check: a
    range that does not fit what is left of [cpu[MAX_CPU]] is stored
    past its end, which leaves the run without meaning. *)
Theorem parse_token_range_overflow MAX_CPU token a b rest rest' cpu n :
  scan_int token = Some (a, String "-" rest) →
  scan_int rest = Some (b, rest') →
  in_int a = true → in_int b = true → b ≠ INT_MAX →
  Z.of_nat (length cpu) ≤ MAX_CPU →
  MAX_CPU < Z.of_nat (length cpu) + Z.max 0 (b - a + 1) →
  parse_token MAX_CPU token cpu n = Undefined.
Proof.
  intros Ha Hb Hia Hib Hmax Hfit Hlen. unfold parse_token.
  destruct (scan_int_suffix _ _ _ Ha) as [pre ->].
  rewrite strchr_app_here.
  unfold sscanf_range. rewrite Ha. change (code "-" =? 45) with true. cbv iota.
  rewrite Hb, Hia, Hib. simpl. unfold bind, ret. simpl.
  unfold push_range. destruct (Z.eqb_spec b INT_MAX) as [?|_]; [done|].
  apply push_loop_overflow; [done|].
  rewrite length_map. unfold upto. rewrite length_seq. lia.
Qed.

Lemma parse_token_range_overflow_witness :
  parse_token 4 "0-7" [] 0%nat = Undefined.
Proof.
  apply (parse_token_range_overflow 4 "0-7" 0 7 "7" EmptyString [] 0%nat);
    (reflexivity || discriminate || (simpl; lia)).
Defined.

(** *** Packages and their first CPUs *)

Lemma first_of_package_snoc sys l c p i :
  first_of_package sys l p i → first_of_package sys (l ++ [c]) p i.
Proof.
  intros [(c0 & Hi & Hp) Hfirst].
  pose proof (lookup_lt_Some _ _ _ Hi) as Hlt. split.
  - exists c0. split; [|done]. by apply lookup_app_l_Some.
  - intros j cj Hj Hcj. rewrite lookup_app_l in Hcj by lia.
    by apply (Hfirst j).
Qed.

Lemma first_of_package_new sys l c p :
  (∀ c', c' ∈ l → package_id sys c' ≠ Some p) →
  package_id sys c = Some p →
  first_of_package sys (l ++ [c]) p (length l).
Proof.
  intros Hnone Hp. split.
  - exists c. split; [|done]. by apply list_lookup_middle.
  - intros j cj Hj Hcj. rewrite lookup_app_l in Hcj by done.
    apply Hnone. by apply list_elem_of_lookup_2 with j.
Qed.

Lemma elem_of_package_ids sys l p :
  p ∈ package_ids sys l ↔ ∃ c, c ∈ l ∧ package_id sys c = Some p.
Proof.
  unfold package_ids. rewrite elem_of_list_to_set, list_elem_of_omap. done.
Qed.

Lemma package_ids_snoc sys l c p :
  package_id sys c = Some p →
  package_ids sys (l ++ [c]) = package_ids sys l ∪ {[p]}.
Proof.
  intros Hp. unfold package_ids.
  rewrite omap_app, list_to_set_app_L. simpl. rewrite Hp. simpl.
  by rewrite union_empty_r_L.
Qed.

Lemma size_package_ids_le sys l : (size (package_ids sys l) ≤ length l)%nat.
Proof.
  unfold package_ids. induction l as [|c l IH]; [by vm_compute|].
  assert (omap (package_id sys) (c :: l)
          = match package_id sys c with
            | Some p => p :: omap (package_id sys) l
            | None => omap (package_id sys) l
            end) as -> by done.
  destruct (package_id sys c) as [p|]; [|simpl; lia].
  rewrite list_to_set_cons, size_union_alt, size_singleton.
  pose proof (subseteq_size
                (list_to_set (omap (package_id sys) l) ∖ {[p]})
                (list_to_set (omap (package_id sys) l) : gset Z)) as Hle.
  simpl. specialize (Hle ltac:(apply subseteq_difference_l; done)). lia.
Qed.

Lemma filter_ones_replicate n :
  filter (λ s : Z, s = 1) (replicate n (-1)) = [].
Proof. induction n as [|n IH]; [done|]. simpl. by rewrite filter_cons_False. Qed.

Lemma filter_ones_insert (l : list Z) p :
  l !! p = Some (-1) →
  length (filter (λ s : Z, s = 1) (<[p:=1]> l))
  = S (length (filter (λ s : Z, s = 1) l)).
Proof.
  revert p. induction l as [|x l IH]; intros [|p] Hp; try done.
  - apply (inj Some) in Hp as ->.
    change (<[0%nat:=1]> (-1 :: l)) with (1 :: l).
    rewrite filter_cons_True by done. by rewrite filter_cons_False.
  - change (<[S p:=1]> (x :: l)) with (x :: <[p:=1]> l).
    change ((x :: l) !! S p) with (l !! p) in Hp.
    destruct (decide (x = 1)).
    + rewrite !filter_cons_True by done. simpl. by rewrite IH.
    + rewrite !filter_cons_False by done. by rewrite IH.
Qed.

Section Discovery.
Variables MAX_LINE MAX_SOCKETS : Z.
Variable sys : System.
Variable cpu : list Z.

Local Abbreviation probe := (probe_cpu MAX_LINE MAX_SOCKETS sys cpu).

(** What the loop over the online CPUs has established after [k]
    entries. *)
Local Abbreviation established k st :=
  (length st.1 = Z.to_nat MAX_SOCKETS ∧
   length st.2 = Z.to_nat MAX_SOCKETS ∧
   (∀ p, (p < Z.to_nat MAX_SOCKETS)%nat →
         discovered sys (take k cpu) st.1 st.2 p) ∧
   length (filter (λ s : Z, s = 1) st.1) = size (package_ids sys (take k cpu)) ∧
   (∀ c, c ∈ take k cpu →
         ∃ p, package_id sys c = Some p ∧ 0 ≤ p < MAX_SOCKETS)).

Lemma probe_cpu_inv i st n st' n' :
  probe i st n = Done (st', n') →
  n' = n ∧
  ∃ c id s_id,
    cpu !! i = Some c ∧ package_id sys c = Some id ∧
    0 ≤ id < MAX_SOCKETS ∧
    st.1 !! Z.to_nat id = Some s_id ∧
    ((s_id = -1 ∧
      st' = (<[Z.to_nat id := 1]> st.1, <[Z.to_nat id := Z.of_nat i]> st.2)) ∨
     (s_id ≠ -1 ∧ st' = st)).
Proof.
  unfold probe_cpu, exit, undefined, ret. intros H.
  destruct (cpu !! i) as [c|]; [|done].
  destruct (MAX_LINE <=? _); [done|].
  destruct (sys_file sys (package_path c)) as [| |s] eqn:Hf; [done..|].
  destruct (scan_int s) as [[id rest]|] eqn:Hs; [|done].
  destruct (in_int id && (0 <=? id) && (id <? MAX_SOCKETS)) eqn:Hb; [|done].
  apply andb_true_iff in Hb as [Hb Hlt]. apply andb_true_iff in Hb as [_ Hle].
  apply Z.leb_le in Hle. apply Z.ltb_lt in Hlt.
  destruct (st.1 !! Z.to_nat id) as [s_id|] eqn:Hl; [|done].
  assert (package_id sys c = Some id) as Hp.
  { unfold package_id. by rewrite Hf, Hs. }
  destruct (Z.eqb_spec s_id (-1)); simplify_eq;
    (split; [done|]); eexists c, id, _; naive_solver.
Qed.

Lemma probe_step k st n st' n' :
  (k < length cpu)%nat →
  established k st →
  probe k st n = Done (st', n') →
  established (S k) st'.
Proof.
  intros Hk (Hl1 & Hl2 & Hdisc & Hcount & Hids) H.
  apply probe_cpu_inv in H
    as (_ & c & id & s_id & Hc & Hp & Hid & Hs & Hcase).
  rewrite (take_S_r _ _ _ Hc).
  assert (length (take k cpu) = k) as Hlen by (rewrite length_take; lia).
  set (q := Z.to_nat id) in *.
  assert (Z.of_nat q = id) as Hq by (unfold q; lia).
  assert (q < Z.to_nat MAX_SOCKETS)%nat as Hqlt by (unfold q; lia).
  assert (∀ c', c' ∈ take k cpu ++ [c] →
            ∃ p, package_id sys c' = Some p ∧ 0 ≤ p < MAX_SOCKETS) as Hids'.
  { intros c' Hc'. apply elem_of_app in Hc' as [?|Hc']; [by apply Hids|].
    apply list_elem_of_singleton in Hc' as ->. by exists id. }
  (* the slots of the other packages *)
  assert (∀ p socks firsts,
            (p < Z.to_nat MAX_SOCKETS)%nat → p ≠ q →
            socks !! p = st.1 !! p → firsts !! p = st.2 !! p →
            discovered sys (take k cpu ++ [c]) socks firsts p) as Hother.
  { intros p socks firsts Hplt Hpq Hsp Hfp.
    destruct (Hdisc p Hplt) as [(H1 & i & Hi & Hfirst)|(H1 & H2 & Hnone)].
    - left. rewrite Hsp, Hfp. split; [done|]. exists i. split; [done|].
      by apply first_of_package_snoc.
    - right. rewrite Hsp, Hfp. repeat split; [done..|].
      intros c' Hc'. apply elem_of_app in Hc' as [?|Hc']; [by apply Hnone|].
      apply list_elem_of_singleton in Hc' as ->. rewrite Hp.
      intros [= Heq]. apply Hpq. lia. }
  destruct Hcase as [[-> ->]|[Hne ->]]; simpl.
  - (* package [id] is seen for the first time *)
    destruct (Hdisc q Hqlt) as [(H1 & _)|(_ & H2 & Hnone)];
      [by rewrite Hs in H1|].
    rewrite Hq in Hnone.
    rewrite !length_insert. repeat split; [done..| | |done].
    + intros p Hplt. destruct (decide (p = q)) as [->|Hpq].
      * left. rewrite !list_lookup_insert_eq by lia.
        split; [done|]. exists k. split; [done|].
        pose proof (first_of_package_new sys (take k cpu) c id Hnone Hp) as Hnew.
        by rewrite Hlen, <- Hq in Hnew.
      * apply Hother; [done..| |]; by rewrite list_lookup_insert_ne.
    + rewrite (filter_ones_insert _ _ Hs), Hcount.
      rewrite (package_ids_snoc _ _ _ _ Hp).
      rewrite size_union, size_singleton; [lia|].
      apply disjoint_singleton_r. rewrite elem_of_package_ids.
      intros (c' & Hc' & Hp'). by apply (Hnone c').
  - (* package [id] was seen before *)
    destruct (Hdisc q Hqlt) as [(H1 & i & Hi & Hfirst)|(H1 & _)];
      [|rewrite Hs in H1; by simplify_eq].
    repeat split; [done..| | |done].
    + intros p Hplt. destruct (decide (p = q)) as [->|Hpq].
      * left. split; [done|]. exists i. split; [done|].
        by apply first_of_package_snoc.
      * by apply Hother.
    + rewrite Hcount, (package_ids_snoc _ _ _ _ Hp).
      assert (id ∈ package_ids sys (take k cpu)) as Hin.
      { apply elem_of_package_ids. destruct Hfirst as [(c0 & Hc0 & Hp0) _].
        exists c0. split; [by apply list_elem_of_lookup_2 with i|].
        by rewrite Hp0, Hq. }
      rewrite union_comm_L, subseteq_union_1_L; [done|].
      by apply singleton_subseteq_l.
Qed.

Lemma probe_loop_established m k st n st' n' :
  (k + m ≤ length cpu)%nat →
  established k st →
  for_loop (seq k m) probe st n = Done (st', n') →
  n' = n ∧ established (k + m) st'.
Proof.
  revert k st. induction m as [|m IH]; intros k st Hkm Hest H; simpl in H.
  - unfold ret in H. simplify_eq. by rewrite Nat.add_0_r.
  - apply bind_inv in H as (st1 & n1 & H1 & H).
    pose proof (probe_step k st n st1 n1 ltac:(lia) Hest H1) as Hest1.
    apply probe_cpu_inv in H1 as [-> _].
    apply (IH (S k) st1) in H as [-> Hest']; [|lia|done].
    split; [done|]. by replace (k + S m)%nat with (S k + m)%nat by lia.
Qed.

Lemma established_start :
  established 0 (replicate (Z.to_nat MAX_SOCKETS) (-1),
                 replicate (Z.to_nat MAX_SOCKETS) (-1)).
Proof.
  simpl. rewrite !length_replicate, filter_ones_replicate.
  repeat split.
  - intros p Hp. right. rewrite !lookup_replicate_2 by done.
    repeat split. intros c Hc. by apply elem_of_nil in Hc.
  - intros c Hc. by apply elem_of_nil in Hc.
Qed.

End Discovery.

Lemma get_n_sockets_established MAX_LINE MAX_CPU MAX_SOCKETS sys n t n' :
  get_n_sockets MAX_LINE MAX_CPU MAX_SOCKETS sys n = Done (t, n') →
  ∃ cpu,
    read_online MAX_LINE MAX_CPU sys n = Done (cpu, n') ∧
    count t = Z.of_nat (length (filter (λ s : Z, s = 1) (sockets t))) ∧
    length (sockets t) = Z.to_nat MAX_SOCKETS ∧
    length (first_lcoreid t) = Z.to_nat MAX_SOCKETS ∧
    (∀ p, (p < Z.to_nat MAX_SOCKETS)%nat →
          discovered sys cpu (sockets t) (first_lcoreid t) p) ∧
    length (filter (λ s : Z, s = 1) (sockets t)) = size (package_ids sys cpu) ∧
    (∀ c, c ∈ cpu → ∃ p, package_id sys c = Some p ∧ 0 ≤ p < MAX_SOCKETS).
Proof.
  unfold get_n_sockets. intros H.
  apply bind_inv in H as (cpu & n1 & Hon & H).
  apply bind_inv in H as (st & n2 & Hloop & H).
  unfold ret in H. simplify_eq. simpl.
  apply (probe_loop_established MAX_LINE MAX_SOCKETS sys cpu
           (length cpu) 0%nat) in Hloop
    as (-> & Hl1 & Hl2 & Hdisc & Hcount & Hids);
    [|lia|apply established_start].
  simpl in *. rewrite firstn_all in *.
  exists cpu. by repeat split.
Qed.

(** X19.  When socket discovery returns, every online CPU has a package
    id below [MAX_SOCKETS], and slot [p] of the member arrays tells
    whether package [p] has an online CPU: if so [sockets[p]] is 1 and
    [first_lcoreid[p]] is the position, in the list of online CPUs, of
    the first CPU of the package; if not both are -1. *)
Theorem get_n_sockets_discovers MAX_LINE MAX_CPU MAX_SOCKETS sys n t n' p :
  get_n_sockets MAX_LINE MAX_CPU MAX_SOCKETS sys n = Done (t, n') →
  0 ≤ Z.of_nat p < MAX_SOCKETS →
  ∃ cpu,
    read_online MAX_LINE MAX_CPU sys n = Done (cpu, n') ∧
    (∀ c, c ∈ cpu → ∃ q, package_id sys c = Some q ∧ 0 ≤ q < MAX_SOCKETS) ∧
    discovered sys cpu (sockets t) (first_lcoreid t) p.
Proof.
  intros H Hp. apply get_n_sockets_established in H
    as (cpu & Hon & _ & _ & _ & Hdisc & _ & Hids).
  exists cpu. repeat split; [done..|]. apply Hdisc. lia.
Qed.

Lemma get_n_sockets_discovers_witness :
  ∃ cpu,
    read_online 1024 1024 (machine offline_first_files ticking_msr) 0%nat
      = Done (cpu, 0%nat) ∧
    (∀ c, c ∈ cpu →
       ∃ q, package_id (machine offline_first_files ticking_msr) c = Some q ∧
            0 ≤ q < 8) ∧
    discovered (machine offline_first_files ticking_msr) cpu
      [1; -1; -1; -1; -1; -1; -1; -1] [0; -1; -1; -1; -1; -1; -1; -1] 0.
Proof.
  apply (get_n_sockets_discovers 1024 1024 8
           (machine offline_first_files ticking_msr) 0%nat
           {| count := 1;
              sockets := [1; -1; -1; -1; -1; -1; -1; -1];
              first_lcoreid := [0; -1; -1; -1; -1; -1; -1; -1] |} 0%nat 0%nat).
  - vm_compute. reflexivity.
  - lia.
Defined.

(** X20.  The number of sockets discovery returns is the number of
    distinct package ids among the online CPUs; it is at most
    [MAX_SOCKETS] and at most the number of online CPUs. *)
Theorem get_n_sockets_counts_packages MAX_LINE MAX_CPU MAX_SOCKETS sys n t n' :
  get_n_sockets MAX_LINE MAX_CPU MAX_SOCKETS sys n = Done (t, n') →
  ∃ cpu,
    read_online MAX_LINE MAX_CPU sys n = Done (cpu, n') ∧
    count t = Z.of_nat (size (package_ids sys cpu)) ∧
    0 ≤ count t ≤ Z.max 0 MAX_SOCKETS ∧
    count t ≤ Z.of_nat (length cpu).
Proof.
  intros H. apply get_n_sockets_established in H
    as (cpu & Hon & Hc & Hl1 & _ & _ & Hcount & _).
  exists cpu. split; [done|]. rewrite Hc, Hcount.
  split; [done|]. split.
  - rewrite <- Hcount. pose proof (length_filter (λ s : Z, s = 1) (sockets t)).
    lia.
  - pose proof (size_package_ids_le sys cpu). lia.
Qed.

Lemma get_n_sockets_counts_packages_witness :
  ∃ cpu,
    read_online 1024 1024 (machine two_socket_files ticking_msr) 0%nat
      = Done (cpu, 0%nat) ∧
    2 = Z.of_nat (size (package_ids (machine two_socket_files ticking_msr) cpu)) ∧
    0 ≤ 2 ≤ Z.max 0 8 ∧ 2 ≤ Z.of_nat (length cpu).
Proof.
  apply (get_n_sockets_counts_packages 1024 1024 8
           (machine two_socket_files ticking_msr) 0%nat
           {| count := 2;
              sockets := [1; 1; -1; -1; -1; -1; -1; -1];
              first_lcoreid := [0; 2; -1; -1; -1; -1; -1; -1] |} 0%nat).
  vm_compute. reflexivity.
Defined.

(** ** The constructor *)

(** *** How it can end the process *)

Lemma exits_ret {A} P (a : A) : exits_within P (ret a).
Proof. by intros n c. Qed.

Lemma exits_undefined {A} P : exits_within P (@undefined A).
Proof. by intros n c. Qed.

Lemma exits_exit {A} (P : Z → Prop) c : P c → exits_within P (@exit A c).
Proof. intros Hc n c' [= <-]. done. Qed.

Lemma exits_bind {A B} P (m : M A) (k : A → M B) :
  exits_within P m → (∀ a, exits_within P (k a)) → exits_within P (bind m k).
Proof.
  intros Hm Hk n c. unfold bind.
  destruct (m n) as [[a n1]|c1|] eqn:E; [apply Hk| |done].
  intros [= <-]. by apply (Hm n).
Qed.

Lemma exits_for_loop {I S} P (idx : list I) (body : I → S → M S) s :
  (∀ i s, exits_within P (body i s)) → exits_within P (for_loop idx body s).
Proof.
  intros Hbody. revert s. induction idx as [|i idx IH]; intros s; simpl.
  - apply exits_ret.
  - apply exits_bind; [apply Hbody|apply IH].
Qed.

Lemma exits_deref {A} P (arr : gmap nat A) i : exits_within P (deref arr i).
Proof. unfold deref. destruct (arr !! i); [apply exits_ret|apply exits_undefined]. Qed.

Lemma exits_weaken {A} (P Q : Z → Prop) (m : M A) :
  (∀ c, P c → Q c) → exits_within P m → exits_within Q m.
Proof. intros HPQ Hm n c H. apply HPQ. by apply (Hm n). Qed.

Lemma exits_read_msr sys r s off :
  exits_within (λ c, c = 127) (read_msr sys r s off).
Proof.
  unfold read_msr. apply exits_bind; [apply exits_deref|].
  intros f n c. by destruct (pread_ret _ =? 8); intros [= <-].
Qed.

Lemma exits_read_counters sys r s nxt :
  exits_within (λ c, c = 127) (read_counters sys r s nxt).
Proof.
  unfold read_counters.
  repeat first
    [ apply exits_ret
    | apply exits_bind; [apply exits_read_msr|intros ?]
    | case_match ].
Qed.

Lemma exits_sample sys s r : exits_within (λ c, c = 127) (sample sys s r).
Proof.
  unfold sample.
  apply exits_bind; [apply exits_deref|intros ?].
  apply exits_bind; [apply exits_read_counters|intros ?].
  apply exits_bind; [by intros n c|intros ?].
  repeat (apply exits_bind; [apply exits_deref|intros ?]).
  apply exits_ret.
Qed.

Lemma exits_reset sys r : exits_within (λ c, c = 127) (reset sys r).
Proof.
  unfold reset. apply exits_for_loop. intros i r0. unfold reset_socket.
  do 4 (apply exits_bind; [by intros n c|intros ?]).
  do 2 (apply exits_bind; [apply exits_sample|intros ?]).
  apply exits_bind; [apply exits_deref|intros ?].
  apply exits_bind; [by intros n c|intros ?].
  apply exits_ret.
Qed.

Lemma exits_open_msr sys s c r :
  exits_within (λ c, c = 2 ∨ c = 3 ∨ c = 127) (open_msr sys s c r).
Proof.
  unfold open_msr. intros n code. unfold exit, ret.
  repeat case_match; intros [= <-]; auto.
Qed.

Lemma exits_get_n_sockets MAX_LINE MAX_CPU MAX_SOCKETS sys :
  exits_within (λ c, c = 1)
    (get_n_sockets MAX_LINE MAX_CPU MAX_SOCKETS sys).
Proof.
  unfold get_n_sockets.
  apply exits_bind; [|intros cpu; apply exits_bind; [|intros ?; apply exits_ret]].
  - unfold read_online.
    destruct (sys_file sys online_path);
      [by apply exits_exit| |];
      (destruct (fgets MAX_LINE _); [|by apply exits_exit]);
      apply exits_for_loop; intros token cpu; unfold parse_token;
      (destruct (strchr token "-");
       [ apply exits_bind;
         [ unfold sscanf_range; repeat case_match;
           (apply exits_ret || apply exits_undefined)
         | intros ?; unfold push_range; case_match;
           [apply exits_undefined|];
           apply exits_for_loop; intros; unfold push_cpu; case_match;
           (apply exits_ret || apply exits_undefined) ]
       | apply exits_bind;
         [ unfold atoi; repeat case_match;
           (apply exits_ret || apply exits_undefined)
         | intros ?; unfold push_cpu; case_match;
           (apply exits_ret || apply exits_undefined) ] ]).
  - apply exits_for_loop. intros i st. unfold probe_cpu.
    repeat case_match;
      (apply exits_ret || apply exits_undefined || by apply exits_exit).
Qed.

(** X21.  The constructor ends the process with code 1 (topology), 2 or
    3 (register device), or 127 (register device or register read), and
    with no other code. *)
Theorem Rapl_new_exit_codes MAX_LINE MAX_CPU MAX_SOCKETS sys n c :
  Rapl_new MAX_LINE MAX_CPU MAX_SOCKETS sys n = Exit c →
  c = 1 ∨ c = 2 ∨ c = 3 ∨ c = 127.
Proof.
  revert n c.
  change (exits_within (λ c, c = 1 ∨ c = 2 ∨ c = 3 ∨ c = 127)
            (Rapl_new MAX_LINE MAX_CPU MAX_SOCKETS sys)).
  unfold Rapl_new.
  apply exits_bind.
  { eapply exits_weaken; [|apply exits_get_n_sockets]. simpl. auto. }
  intros t. apply exits_bind.
  { unfold open_sockets. apply exits_for_loop. intros i r.
    destruct (first_lcoreid t !! i); [|apply exits_undefined].
    eapply exits_weaken; [|apply exits_open_msr]. simpl. tauto. }
  intros r1. apply exits_bind.
  { unfold read_power_unit. repeat case_match;
      (apply exits_undefined ||
       (eapply exits_weaken; [|apply exits_read_msr]; simpl; auto)). }
  intros raw. apply exits_bind.
  { unfold read_power_info. repeat case_match;
      try (apply exits_ret || apply exits_undefined).
    apply exits_bind; [|intros ?; apply exits_ret].
    eapply exits_weaken; [|apply exits_read_msr]. simpl. auto. }
  intros info. apply exits_bind; [|intros ?; apply exits_ret].
  eapply exits_weaken; [|apply exits_reset]. simpl. auto.
Qed.

Lemma Rapl_new_exit_codes_witness :
  Rapl_new 1024 1024 8 (machine [] ticking_msr) 0%nat = Exit 1 ∧
  (1 = 1 ∨ 1 = 2 ∨ 1 = 3 ∨ 1 = 127).
Proof.
  assert (Rapl_new 1024 1024 8 (machine [] ticking_msr) 0%nat = Exit 1) as H
    by (vm_compute; reflexivity).
  split; [exact H|].
  exact (Rapl_new_exit_codes 1024 1024 8 (machine [] ticking_msr) 0%nat 1 H).
Defined.

(** *** What it establishes *)

Lemma get_n_sockets_no_calls MAX_LINE MAX_CPU MAX_SOCKETS sys n t n' :
  get_n_sockets MAX_LINE MAX_CPU MAX_SOCKETS sys n = Done (t, n') → n' = n.
Proof.
  intros H. apply get_n_sockets_established in H as (cpu & Hon & _).
  by apply read_online_inv in Hon as [-> _].
Qed.

Section OpenSockets.
Variable sys : System.
Variable t : topology.

Local Abbreviation open_one :=
  (λ (i : nat) (r : Rapl),
     match first_lcoreid t !! i with
     | Some c => open_msr sys i c r
     | None => undefined
     end).

Lemma open_one_inv i r n r' n' :
  open_one i r n = Done (r', n') →
  n' = n ∧
  ∃ c, first_lcoreid t !! i = Some c ∧
       0 ≤ open_fd (sys_open sys (msr_path c)) ∧
       r' = with_fd r (<[i := open_fd (sys_open sys (msr_path c))]> (fd r)).
Proof.
  cbv beta. destruct (first_lcoreid t !! i) as [c|]; [|by unfold undefined].
  unfold open_msr, exit, ret.
  destruct (Z.ltb_spec (open_fd (sys_open sys (msr_path c))) 0) as [Hlt|Hge].
  - by repeat case_match.
  - intros [= <- <-]. split; [done|]. by exists c.
Qed.

Lemma open_loop_inv k r n r' n' :
  for_loop (seq 0 k) open_one r n = Done (r', n') →
  n' = n ∧ r' = with_fd r (fd r') ∧
  (∀ j, (k ≤ j)%nat → fd r' !! j = fd r !! j) ∧
  ∀ i, (i < k)%nat →
    ∃ c, first_lcoreid t !! i = Some c ∧
         0 ≤ open_fd (sys_open sys (msr_path c)) ∧
         fd r' !! i = Some (open_fd (sys_open sys (msr_path c))).
Proof.
  revert r' n'. induction k as [|k IH]; intros r' n' H.
  - simpl in H. unfold ret in H. simplify_eq.
    split; [done|]. split; [by destruct r'|]. split; [done|].
    intros i Hi. lia.
  - rewrite seq_S, for_loop_app in H. simpl in H.
    apply bind_inv in H as (r1 & n1 & H1 & H).
    apply bind_inv in H as (r2 & n2 & H2 & H).
    unfold ret in H. simplify_eq.
    apply IH in H1 as (-> & Hr1 & Hge & Hlt).
    apply open_one_inv in H2 as (-> & c & Hc & Hfd & ->).
    split; [done|]. split; [by rewrite Hr1|]. simpl. split.
    + intros j Hj. rewrite lookup_insert_ne by lia. apply Hge. lia.
    + intros i Hi. destruct (decide (i = k)) as [->|Hne].
      * exists c. by rewrite lookup_insert_eq.
      * rewrite lookup_insert_ne by done. apply Hlt. lia.
Qed.

End OpenSockets.

Lemma Rapl_new_inv MAX_LINE MAX_CPU MAX_SOCKETS sys n obj n' :
  Rapl_new MAX_LINE MAX_CPU MAX_SOCKETS sys n = Done (obj, n') →
  ∃ r1 raw_value n2 info n3,
    get_n_sockets MAX_LINE MAX_CPU MAX_SOCKETS sys n = Done (topo obj, n) ∧
    vendor r1 = get_vendor sys ∧ n_sockets r1 = count (topo obj) ∧
    pp1_supported r1 = detect_pp1 sys (get_vendor sys) ∧
    prev_state r1 = ∅ ∧ current_state r1 = ∅ ∧
    next_state r1 = ∅ ∧ running_total r1 = ∅ ∧
    (∀ j, (Z.to_nat (count (topo obj)) ≤ j)%nat → fd r1 !! j = None) ∧
    (∀ i, (i < Z.to_nat (count (topo obj)))%nat →
       ∃ c, first_lcoreid (topo obj) !! i = Some c ∧
            0 ≤ open_fd (sys_open sys (msr_path c)) ∧
            fd r1 !! i = Some (open_fd (sys_open sys (msr_path c)))) ∧
    read_power_unit sys r1 n = Done (raw_value, n2) ∧
    power_units obj = power_units_of raw_value ∧
    time_units obj = time_units_of raw_value ∧
    read_power_info sys (with_energy_units r1 (energy_units_of raw_value))
      (power_units obj) (time_units obj) n2 = Done (info, n3) ∧
    (thermal_spec_power obj, minimum_power obj, maximum_power obj,
     time_window obj) = info ∧
    smt obj = get_smt sys (get_vendor sys) ∧
    n_logical_cores obj = get_n_logical_cores sys ∧
    reset sys (with_energy_units r1 (energy_units_of raw_value)) n3
      = Done (engine obj, n').
Proof.
  unfold Rapl_new. intros H.
  apply bind_inv in H as (t & n1 & Ht & H).
  pose proof (get_n_sockets_no_calls _ _ _ _ _ _ _ Ht) as ->.
  apply bind_inv in H as (r1 & n1 & Hopen & H).
  apply bind_inv in H as (raw & n2 & Hraw & H).
  apply bind_inv in H as (info & n3 & Hinfo & H).
  apply bind_inv in H as (r3 & n4 & Hreset & H).
  unfold ret in H. simplify_eq. simpl.
  unfold open_sockets, upto in Hopen. simpl in Hopen.
  apply open_loop_inv in Hopen as (-> & Hr1 & Hge & Hlt).
  exists r1, raw, n2, info, n3.
  rewrite Hr1. simpl. rewrite Hr1 in Hraw, Hinfo, Hreset.
  repeat split; try done.
  by destruct info as [[[a b] c] d].
Qed.

(** X22.  When the constructor returns: the vendor is the one detected
    and the socket count the one discovered; the three units are
    [2^-k] values; every socket [i] below the count has the descriptor
    [open] returned for the register device of core [first_lcoreid[i]]
    and the records [sample] needs; and the cumulative energy of the
    package, the core plane and DRAM is exactly 0. *)
Theorem Rapl_new_establishes MAX_LINE MAX_CPU MAX_SOCKETS sys n obj n' :
  Rapl_new MAX_LINE MAX_CPU MAX_SOCKETS sys n = Done (obj, n') →
  let r := engine obj in
  get_n_sockets MAX_LINE MAX_CPU MAX_SOCKETS sys n = Done (topo obj, n) ∧
  vendor r = get_vendor sys ∧ n_sockets r = count (topo obj) ∧
  decoded_unit (power_units obj) ∧ decoded_unit (energy_units r) ∧
  decoded_unit (time_units obj) ∧
  (∀ i, 0 ≤ Z.of_nat i < n_sockets r →
     allocated r i ∧
     ∃ c, first_lcoreid (topo obj) !! i = Some c ∧
          0 ≤ open_fd (sys_open sys (msr_path c)) ∧
          fd r !! i = Some (open_fd (sys_open sys (msr_path c)))) ∧
  (∀ d, d ≠ PP1 → total_energy_of d r n' = Done (0%float, n')).
Proof.
  intros H r. apply Rapl_new_inv in H
    as (r1 & raw & n2 & info & n3 & Ht & Hv & Hn & _ & _ & _ & _ & _ & _
        & Hfd & _ & Hpu & Htu & _ & _ & _ & _ & Hreset).
  destruct (units_decoded raw) as (Hdp & Hde & Hdt).
  pose proof Hreset as Hloop. unfold reset, upto in Hloop.
  apply reset_loop_full in Hloop as [(Hv3 & Hn3 & _ & He3 & Hf3) Hsock].
  simpl in *. fold r in Hv3, Hn3, He3, Hf3, Hsock.
  split; [done|]. split; [by rewrite Hv3|]. split; [by rewrite Hn3|].
  split; [by rewrite Hpu|]. split; [by rewrite He3|]. split; [by rewrite Htu|].
  split.
  - intros i Hi. rewrite Hn3, Hn in Hi.
    destruct (Hfd i) as (c & Hc & Hpos & Hfdi); [lia|].
    destruct (Hsock i) as (prv & cur & nxt & rt & k & Hp & Hcu & Hx & Hr & _);
      [lia|].
    split.
    + unfold allocated. rewrite Hf3, Hfdi, Hp, Hcu, Hx, Hr. repeat split; eauto.
    + exists c. by rewrite Hf3.
  - intros d Hd. rewrite total_energy_of_loop.
    apply total_energy_loop_zero; [by rewrite He3|].
    intros i Hi. unfold upto in Hi. apply elem_of_seq in Hi.
    destruct (Hsock i) as (prv & cur & nxt & rt & k & _ & _ & _ & Hr
                           & Hz1 & Hz2 & Hz3 & _); [rewrite <- Hn3; lia|].
    exists rt. split; [done|]. by destruct d.
Qed.

Lemma Rapl_new_establishes_witness :
  ∃ obj n',
    Rapl_new 1024 1024 8 (booting_machine "GenuineIntel") 0%nat
      = Done (obj, n') ∧
    n_sockets (engine obj) = 2 ∧
    decoded_unit (energy_units (engine obj)) ∧
    allocated (engine obj) 1 ∧
    total_energy_of PKG (engine obj) n' = Done (0%float, n').
Proof.
  assert (∃ obj n', Rapl_new 1024 1024 8 (booting_machine "GenuineIntel") 0%nat
                    = Done (obj, n')) as (obj & n' & H)
    by (vm_compute; eauto).
  exists obj, n'. split; [exact H|].
  destruct (Rapl_new_establishes 1024 1024 8 _ _ _ _ H)
    as (Ht & _ & Hn & _ & Hu & _ & Hsock & Hen).
  assert (n_sockets (engine obj) = 2) as Hn2.
  { rewrite Hn.
    assert (get_n_sockets 1024 1024 8 (booting_machine "GenuineIntel") 0%nat
            = Done ({| count := 2; sockets := [1; 1; -1; -1; -1; -1; -1; -1];
                       first_lcoreid := [0; 2; -1; -1; -1; -1; -1; -1] |},
                    0%nat)) as Ht' by (vm_compute; reflexivity).
    rewrite Ht' in Ht. by injection Ht as <-. }
  split; [exact Hn2|]. split; [exact Hu|]. split.
  - apply Hsock. rewrite Hn2. lia.
  - by apply Hen.
Defined.

(** X23.  On AMD, when the constructor returns, the graphics plane is
    marked unsupported, the four static power fields are 0, and the
    previous and current snapshot of every socket hold 0 for the core
    plane, the graphics plane and DRAM. *)
Theorem Rapl_new_amd MAX_LINE MAX_CPU MAX_SOCKETS sys n obj n' :
  get_vendor sys = 1 →
  Rapl_new MAX_LINE MAX_CPU MAX_SOCKETS sys n = Done (obj, n') →
  let r := engine obj in
  vendor r = 1 ∧ pp1_supported r = false ∧
  thermal_spec_power obj = 0%float ∧ minimum_power obj = 0%float ∧
  maximum_power obj = 0%float ∧ time_window obj = 0%float ∧
  ∀ i, 0 ≤ Z.of_nat i < n_sockets r →
    ∃ prv cur,
      prev_state r !! i = Some prv ∧ current_state r !! i = Some cur ∧
      pp0 prv = 0 ∧ pp1 prv = 0 ∧ dram prv = 0 ∧
      pp0 cur = 0 ∧ pp1 cur = 0 ∧ dram cur = 0.
Proof.
  intros Hamd H r. apply Rapl_new_inv in H
    as (r1 & raw & n2 & info & n3 & _ & Hv & Hn & Hpp1 & _ & _ & _ & _ & _
        & _ & _ & _ & _ & Hinfo & Hfields & _ & _ & Hreset).
  rewrite Hamd in Hv, Hpp1.
  unfold reset, upto in Hreset.
  apply reset_loop_full in Hreset as [(Hv3 & Hn3 & Hs3 & _ & _) Hsock].
  simpl in *. fold r in Hv3, Hn3, Hs3, Hsock.
  unfold read_power_info in Hinfo. simpl in Hinfo. rewrite Hv in Hinfo.
  simpl in Hinfo. unfold ret in Hinfo. simplify_eq.
  split; [by rewrite Hv3|]. split; [by rewrite Hs3, Hpp1|].
  repeat (split; [done|]).
  intros i Hi.
  destruct (Hsock i) as (prv & cur & nxt & rt & k & Hp & Hc & _ & _ & _ & _ & _
                         & _ & _ & (_ & _ & _ & Hwp) & (_ & _ & _ & Hwc));
    [lia|].
  destruct (Hwp Hv) as (? & ? & ?). destruct (Hwc Hv) as (? & ? & ?).
  by exists prv, cur.
Qed.

Lemma Rapl_new_amd_witness :
  ∃ obj n',
    Rapl_new 1024 1024 8 (booting_machine "AuthenticAMD") 0%nat
      = Done (obj, n') ∧
    pp1_supported (engine obj) = false ∧
    thermal_spec_power obj = 0%float.
Proof.
  assert (∃ obj n', Rapl_new 1024 1024 8 (booting_machine "AuthenticAMD") 0%nat
                    = Done (obj, n')) as (obj & n' & H)
    by (vm_compute; eauto).
  exists obj, n'. split; [exact H|].
  assert (get_vendor (booting_machine "AuthenticAMD") = 1) as Hamd
    by (vm_compute; reflexivity).
  destruct (Rapl_new_amd 1024 1024 8 _ _ _ _ Hamd H) as (_ & Hp & Ht & _).
  by split.
Defined.
